(** * The tswow interactive prompt: tokenizer, command tree and dispatch

    A shallow embedding of [splitArgs], [Command] and the [commands]
    namespace of the tswow command prompt.

    Conventions of the embedding.
    - Strings are [string] (sequences of 8-bit characters); the prompt is
      modelled on ASCII input.
    - The [children] object of a [Command] and the [customCommands] object
      are object literals used as dictionaries. Their own properties are a
      [gmap]; a read goes through [jsGet], which also finds the members
      of [Object.prototype] (such as [constructor] or [toString]).
    - The [parent] back-reference of a node is only read to build display
      names. The embedding threads the path from the root to the current
      node instead: the root has path [[]] (its [parent] is [undefined]).
    - Handlers are closures in the source. The closures the prompt itself
      creates are represented by constructors of [Handler]; handlers that
      other modules register are [HExtern f], a function from the
      arguments to the messages they print and the way they complete.
    - Calls to the terminal, the configuration and the file system are
      recorded as a trace of [Event]s.
    - An alias can re-enter [sendCommand] without bound, so the
      interpreter takes a fuel argument; [None] means the fuel ran out. *)

From stdpp Require Import gmap strings list fin_maps.
From Stdlib Require Import Ascii String.

Local Open Scope string_scope.
Local Open Scope list_scope.

(** ** JavaScript string primitives *)

Module Js.

Definition dquote : ascii := "034"%char.
Definition backslash : ascii := "092"%char.
Definition space : ascii := " "%char.

(** [s + c] for a one-character [c]. *)
Definition snoc (s : string) (c : ascii) : string := s +:+ String c "".

(** [s.startsWith(p)] *)
Fixpoint startsWith (p s : string) : bool :=
  match p, s with
  | "", _ => true
  | String a p', String b s' => if decide (a = b) then startsWith p' s' else false
  | String _ _, "" => false
  end.

(** [s.includes(p)] *)
Fixpoint includes (p s : string) : bool :=
  startsWith p s ||
  match s with
  | "" => false
  | String _ s' => includes p s'
  end.

(** The scan behind [s.split(sep)] for a non-empty [sep]: [skip] counts
    the characters of a separator that was just matched and that are
    still to be passed over; [cur] is the piece being read. *)
Fixpoint split_go (sep : string) (skip : nat) (cur s : string) : list string :=
  match s with
  | "" => [cur]
  | String c s' =>
      match skip with
      | S k => split_go sep k cur s'
      | O =>
          if startsWith sep s
          then cur :: split_go sep (String.length sep - 1) "" s'
          else split_go sep 0 (snoc cur c) s'
      end
  end.

(** [s.split(sep)], [sep] non-empty. *)
Definition split (sep s : string) : list string := split_go sep 0 "" s.

(** [l.join(sep)] *)
Fixpoint join (sep : string) (l : list string) : string :=
  match l with
  | [] => ""
  | [x] => x
  | x :: rest => x +:+ sep +:+ join sep rest
  end.

(** [x => x.length > 0] *)
Definition nonEmpty (x : string) : bool := negb (String.length x =? 0)%nat.

End Js.

(** ** Tokenizer *)

(** The loop variables of [splitArgs]. *)
Record Scan := mkScan {
  args : list string;
  inString : bool;
  escaped : bool;
  cur : string
}.

Definition scanInit : Scan :=
  {| args := []; inString := false; escaped := false; cur := "" |}.

(** One iteration of the [for] loop of [splitArgs] on character [c]. *)
Definition scanStep (s : Scan) (c : ascii) : Scan :=
  if bool_decide (c = Js.dquote) && negb (escaped s) then
    {| args := args s; inString := negb (inString s); escaped := escaped s; cur := cur s |}
  else if bool_decide (c = Js.backslash) && inString s && negb (escaped s) then
    {| args := args s; inString := inString s; escaped := true; cur := cur s |}
  else if bool_decide (c = Js.space) && negb (inString s) then
    {| args := args s ++ [cur s]; inString := inString s; escaped := escaped s; cur := "" |}
  else
    {| args := args s; inString := inString s; escaped := escaped s; cur := Js.snoc (cur s) c |}.

Fixpoint scanLoop (s : Scan) (command : string) : Scan :=
  match command with
  | "" => s
  | String c rest => scanLoop (scanStep s c) rest
  end.

Definition splitArgs (command : string) : list string :=
  let s := scanLoop scanInit command in
  let out := if (0 <? String.length (cur s))%nat then args s ++ [cur s] else args s in
  filter (fun x => Is_true (Js.nonEmpty x)) out.

(** ** Values thrown and messages printed *)

(** What a [catch] clause can receive: an [Error] object with its
    [message], or any other thrown value (one on which
    [error && error.message] is falsy, such as [undefined] or a string). *)
Inductive Thrown :=
  | JsError (message : string)
  | JsOther.

(** A call on the terminal or the file system.
    [EError e stack]: [term.error(e)], with [e.stack] when [stack].
    [EPrintCommand path]: the listing that [help] renders for the node at
    [path] and its descendants. *)
Inductive Event :=
  | ELog (msg : string)
  | EError (e : Thrown) (stack : bool)
  | EWarn (msg : string)
  | EMagenta (msg : string)
  | ESetEnabled (on : bool)
  | EPrintCommand (path : list string)
  | EWrite (file : string) (content : gmap string string).

Inductive Completion :=
  | Normal
  | Throw (e : Thrown).

(** ** Property access on plain objects *)

(** [children] and [customCommands] are object literals, so a property
    read that finds no own property goes on to [Object.prototype]. These
    are the names it finds there. *)
Definition objectPrototypeNames : list string :=
  ["constructor"; "hasOwnProperty"; "isPrototypeOf"; "propertyIsEnumerable";
   "toLocaleString"; "toString"; "valueOf"; "__proto__";
   "__defineGetter__"; "__defineSetter__"; "__lookupGetter__"; "__lookupSetter__"].

Definition inherited (k : string) : bool := bool_decide (k ∈ objectPrototypeNames).

(** The value of [o[k]]: an own property, a member of
    [Object.prototype] (a function or an object, never a [Command] and
    never [undefined]), or [undefined]. *)
Inductive Lookup (A : Type) :=
  | Own (a : A)
  | Inherited
  | Undefined.
Arguments Own {A} a.
Arguments Inherited {A}.
Arguments Undefined {A}.

Definition jsGet {A : Type} (o : gmap string A) (k : string) : Lookup A :=
  match o !! k with
  | Some a => Own a
  | None => if inherited k then Inherited else Undefined
  end.

(** [o[k] = v]. Every member of [Object.prototype] is a writable data
    property, which the assignment shadows by an own property, except
    [__proto__]: its setter ignores a string, unless the object has an own
    property of that name. *)
Definition jsSet (o : gmap string string) (k v : string) : gmap string string :=
  if decide (k = "__proto__")
  then match o !! k with Some _ => <[k := v]> o | None => o end
  else <[k := v]> o.

(** The [TypeError] thrown by a call [e(...)] when [e] is [undefined],
    with the message of V8. *)
Definition notAFunction (e : string) : Thrown := JsError (e +:+ " is not a function").

(** ** The command tree *)

Inductive Handler :=
  | HPrint
  | HDefineAlias
  | HAlias (expansion : list string)
  | HHelp
  | HExtern (f : list string -> list Event * Completion).

#[warnings="-register-all"]
Inductive Command := mkCommand {
  name : string;
  argDesc : option string;
  description : option string;
  handler : option Handler;
  children : gmap string Command
}.

(** [new Command(nm, ad, descr, onCommand, parent)] *)
Definition newCommand (nm : string) (ad descr : option string)
    (onCommand : option Handler) : Command :=
  mkCommand nm ad descr onCommand ∅.

(** The node [this] with its [children] object replaced. *)
Definition withChildren (this : Command) (ch : gmap string Command) : Command :=
  mkCommand (name this) (argDesc this) (description this) (handler this) ch.

(** [fullname] of the node at [path] from the root. *)
Definition fullname (path : list string) : string := Js.join " " path.

(** [addCommand] on the node [this] that sits at [path]: the new tree
    rooted at [this], or the error thrown. *)
Definition addCommand (this : Command) (path : list string) (nm : string)
    (ad descr : option string) (h : option Handler) : Command + Thrown :=
  match jsGet (children this) nm with
  | Undefined =>
      inl (withChildren this (<[nm := newCommand nm ad descr h]> (children this)))
  | _ => inr (JsError ("Multiple commands: " +:+ fullname path +:+ "#" +:+ nm))
  end.

(** [removeCommand]; [delete] removes an own property and nothing else. *)
Definition removeCommand (this : Command) (nm : string) : Command :=
  match jsGet (children this) nm with
  | Undefined => this
  | _ => withChildren this (delete nm (children this))
  end.

(** [findCommand]: the value returned, [None] standing for [undefined],
    or the error thrown. *)
Fixpoint findCommand (this : Command) (input : list string) : option Command + Thrown :=
  match input with
  | [] => inl (Some this)
  | t0 :: rest =>
      match jsGet (children this) t0 with
      | Undefined => inl (Some this)
      | Own child => findCommand child rest
      | Inherited => inr (notAFunction "child.findCommand")
      end
  end.

(** ** The prompt *)

(** The mutable state of the [commands] namespace and of its
    collaborators: the tree under [rootCommand], the [customCommands]
    object, the value of [cfg.display.print_stacktrace()], and the calls
    made so far on the terminal and the file system, oldest first. *)
Record State := mkState {
  rootCommand : Command;
  customCommands : gmap string string;
  print_stacktrace : bool;
  trace : list Event
}.

Definition emit (e : Event) (st : State) : State :=
  mkState (rootCommand st) (customCommands st) (print_stacktrace st) (trace st ++ [e]).

Definition emitAll (es : list Event) (st : State) : State :=
  mkState (rootCommand st) (customCommands st) (print_stacktrace st) (trace st ++ es).

Definition commandfile : string := "./config/commands.yaml".

(** [a[0]] used as a property key or inside a template string:
    [undefined] reads as the nine letters of its name. *)
Definition firstArg (a : list string) : string :=
  match a with
  | [] => "undefined"
  | x :: _ => x
  end.

(** [a.slice(1)] *)
Definition slice1 (a : list string) : list string := tail a.

(** [error && error.message] *)
Definition hasMessage (e : Thrown) : bool :=
  match e with
  | JsError m => Js.nonEmpty m
  | JsOther => false
  end.

(** The [catch] clause of [sendCommand]. *)
Definition report (c : Completion) (st : State) : State :=
  match c with
  | Normal => st
  | Throw e => if hasMessage e then emit (EError e (print_stacktrace st)) st else st
  end.

(** [addCustomCommand(nm, expansion)] *)
Definition addCustomCommand (nm : string) (expansion : list string) (st : State)
    : State * Completion :=
  let cc := jsSet (customCommands st) nm (Js.join " " expansion) in
  let tr := trace st ++ [EWrite commandfile cc] in
  let root1 := removeCommand (rootCommand st) nm in
  match addCommand root1 [] nm (Some "") (Some "") (Some (HAlias expansion)) with
  | inl root2 => (mkState root2 cc (print_stacktrace st) tr, Normal)
  | inr e => (mkState root1 cc (print_stacktrace st) tr, Throw e)
  end.

(** The [TypeError]s of the [help] handler once its walk has stepped
    onto a member of [Object.prototype], which has no [children]: reading
    [cpd.children[arg]] for a further argument, or [Object.values] of it in
    [printCommand]. Messages of V8. *)
Definition cannotRead (arg : string) : Thrown :=
  JsError ("Cannot read properties of undefined (reading '" +:+ arg +:+ "')").
Definition cannotConvert : Thrown :=
  JsError "Cannot convert undefined or null to object".

(** The [help] handler from [cur] (at [path]) along its arguments: what
    it prints, or what it throws. *)
Fixpoint helpWalk (cur : Command) (path : list string) (a : list string)
    : Event + Thrown :=
  match a with
  | [] => inl (EPrintCommand path)
  | arg :: rest =>
      match jsGet (children cur) arg with
      | Undefined => inl (EWarn (fullname path +:+ " has no child command " +:+ arg))
      | Own c => helpWalk c (path ++ [arg]) rest
      | Inherited =>
          match rest with
          | [] => inr cannotConvert
          | arg' :: _ => inr (cannotRead arg')
          end
      end
  end.

(** [input.split(' ').filter(x => x.length > 0)] *)
Definition lineTokens (input : string) : list string :=
  filter (fun x => Is_true (Js.nonEmpty x)) (Js.split " " input).

Section Interpreter.

(** [rootCommand.handle(a)] as seen from inside a handler. *)
Variable dispatch : list string -> State -> option (State * Completion).

(** The [for] loop of [sendCommand] over the statements [coms]. *)
Fixpoint runStatements (coms : list string) (st : State) : option State :=
  match coms with
  | [] => Some st
  | com :: rest =>
      match dispatch (splitArgs com) st with
      | None => None
      | Some (st1, c) => runStatements rest (report c st1)
      end
  end.

(** The statements of an input line. *)
Definition statements (input : string) : list string :=
  if Js.startsWith "command" input then [input] else Js.split "&&" input.

(** The body of [sendCommand] after its first test. *)
Definition sendCommandBody (input : string) (st : State) : option (State * Completion) :=
  match runStatements (statements input) (emit (ESetEnabled false) st) with
  | None => None
  | Some st1 => Some (emit (ESetEnabled true) st1, Normal)
  end.

(** [sendCommand]: the state when its promise settles, fulfilled
    ([Normal]) or rejected ([Throw]). The first [findCommand] is outside
    the [try]. *)
Definition sendCommandWith (input : string) (st : State) : option (State * Completion) :=
  match findCommand (rootCommand st) (lineTokens input) with
  | inr e => Some (st, Throw e)
  | inl None => Some (st, Normal)
  | inl (Some _) => sendCommandBody input st
  end.

(** Calling a handler on its arguments. *)
Definition runHandler (h : Handler) (a : list string) (st : State)
    : option (State * Completion) :=
  match h with
  | HPrint => Some (emit (ELog (Js.join " " a)) st, Normal)
  | HDefineAlias => Some (addCustomCommand (firstArg a) (slice1 a) st)
  | HAlias expansion => sendCommandWith (Js.join " " (expansion ++ a)) st
  | HHelp =>
      match helpWalk (rootCommand st) [] a with
      | inl e => Some (emit e st, Normal)
      | inr e => Some (st, Throw e)
      end
  | HExtern f => let '(es, c) := f a in Some (emitAll es st, c)
  end.

End Interpreter.

(** [this.handle(a)] for the node [this] at [path]. *)
Fixpoint handle (fuel : nat) (this : Command) (path : list string)
    (a : list string) (st : State) {struct fuel} : option (State * Completion) :=
  match fuel with
  | O => None
  | S fuel' =>
      let fa := firstArg a in
      match jsGet (children this) fa with
      | Own fc => handle fuel' fc (path ++ [fa]) (slice1 a) st
      | Inherited => Some (st, Throw (notAFunction "fc.handle"))
      | Undefined =>
          match handler this with
          | None =>
              Some (st, Throw (JsError ("No command " +:+
                     (match path with [] => "" | _ => fullname path +:+ " " end) +:+ fa)))
          | Some h =>
              runHandler (fun a' st' => handle fuel' (rootCommand st') [] a' st') h a st
          end
      end
  end.

(** [rootCommand.handle(a)] *)
Definition dispatchRoot (fuel : nat) (a : list string) (st : State)
    : option (State * Completion) :=
  handle fuel (rootCommand st) [] a st.

Definition sendCommand (fuel : nat) (input : string) (st : State)
    : option (State * Completion) :=
  sendCommandWith (dispatchRoot fuel) input st.

(** ** The prompt as the module leaves it after loading *)

Definition andThen (r : Command + Thrown) (k : Command -> Command + Thrown)
    : Command + Thrown :=
  match r with
  | inl c => k c
  | inr e => inr e
  end.

(** The tree built by the top-level statements of the [commands]
    namespace when no alias file exists. *)
Definition initialRoot : Command + Thrown :=
  andThen (inl (newCommand "" (Some "") (Some "") None)) (fun r0 =>
  andThen (addCommand r0 [] "print" (Some "messages")
             (Some "Prints out messages to the screen") (Some HPrint)) (fun r1 =>
  andThen (addCommand r1 [] "command" (Some "alias command")
             (Some "Creates a command alias") (Some HDefineAlias)) (fun r2 =>
  addCommand r2 [] "help" (Some "command, [args]?")
             (Some "Prints this help message") (Some HHelp)))).

(** The same tree, written out. *)
Definition printNode : Command :=
  newCommand "print" (Some "messages")
    (Some "Prints out messages to the screen") (Some HPrint).
Definition commandNode : Command :=
  newCommand "command" (Some "alias command")
    (Some "Creates a command alias") (Some HDefineAlias).
Definition helpNode : Command :=
  newCommand "help" (Some "command, [args]?")
    (Some "Prints this help message") (Some HHelp).
Definition promptRoot : Command :=
  mkCommand "" (Some "") (Some "") None
    (<["help" := helpNode]> (<["command" := commandNode]> (<["print" := printNode]> ∅))).

(** The state after loading, [stack] being the stack-trace setting. *)
Definition initialState (stack : bool) : State := mkState promptRoot ∅ stack [].

(** ** Addressing nodes from the root *)

(** The node reached from [this] by following [path] exactly:
    [this.children[p1].children[p2]...]. *)
Fixpoint nodeAt (this : Command) (path : list string) : option Command :=
  match path with
  | [] => Some this
  | p :: ps =>
      match children this !! p with
      | None => None
      | Some c => nodeAt c ps
      end
  end.

(** [parent.addCommand(nm, ...)] where [parent] is the node found at
    [path] below [this] (itself at [pre]). The node is mutated in place,
    so the change is seen from [this]: the result is the tree rooted at
    [this] afterwards. [None] when [path] leads to no node. *)
Fixpoint addCommandAt (this : Command) (pre path : list string) (nm : string)
    (ad descr : option string) (h : option Handler) : option (Command + Thrown) :=
  match path with
  | [] => Some (addCommand this pre nm ad descr h)
  | p :: ps =>
      match children this !! p with
      | None => None
      | Some c =>
          match addCommandAt c (pre ++ [p]) ps nm ad descr h with
          | Some (inl c') => Some (inl (withChildren this (<[p := c']> (children this))))
          | other => other
          end
      end
  end.

(** A line of [n] spaces. *)
Fixpoint spaces (n : nat) : string :=
  match n with
  | O => ""
  | S k => String Js.space (spaces k)
  end.

(** The input of the escaped-quote example: a, space, quote, b,
    backslash, quote, c, quote, space, d. *)
Definition escapedQuoteLine : string :=
  "a " +:+ String Js.dquote "b" +:+ String Js.backslash ""
       +:+ String Js.dquote "c" +:+ String Js.dquote " d".


(** The tree root -> foo -> bar, with [foo] a node without handler and
    [bar] a node that prints its arguments. *)
Definition barNode : Command := newCommand "bar" None None (Some HPrint).
Definition fooNode : Command := mkCommand "foo" None None None {[ "bar" := barNode ]}.
Definition fooBarRoot : Command :=
  mkCommand "" (Some "") (Some "") None {[ "foo" := fooNode ]}.

(** The prompt with one more command, [boom], registered by another
    module; its handler throws a value that carries no message. *)
Definition boomNode : Command :=
  newCommand "boom" None None (Some (HExtern (fun _ => ([], Throw JsOther)))).
Definition boomState : State :=
  mkState (withChildren promptRoot (<["boom" := boomNode]> (children promptRoot)))
    ∅ false [].

(** The prompt with a command [move] that prints its arguments, after
    the alias [go] has been defined as [move north]. *)
Definition moveNode : Command := newCommand "move" None None (Some HPrint).
Definition moveState : State :=
  mkState (withChildren promptRoot (<["move" := moveNode]> (children promptRoot)))
    ∅ false [].
Definition goState : State := fst (addCustomCommand "go" ["move"; "north"] moveState).

(** The node that [addCustomCommand] registers for an alias. *)
Definition aliasNode (nm : string) (expansion : list string) : Command :=
  newCommand nm (Some "") (Some "") (Some (HAlias expansion)).

(** One turn of the loop: tokenize, dispatch, and report what was caught. *)
Definition runStatement (dispatch : list string -> State -> option (State * Completion))
    (acc : option State) (com : string) : option State :=
  st ← acc; r ← dispatch (splitArgs com) st; Some (report r.2 r.1).

(** [d2] answers wherever [d1] does, with the same answer. *)
Definition extends (d1 d2 : list string -> State -> option (State * Completion)) : Prop :=
  forall a st r, d1 a st = Some r -> d2 a st = Some r.

(** The outcome of [handle] on the node where the descent stops. *)
Definition stopOutcome (fuel : nat) (c : Command) (path post : list string) (st : State)
    : option (State * Completion) :=
  match handler c with
  | Some h => runHandler (dispatchRoot fuel) h post st
  | None =>
      Some (st, Throw (JsError ("No command " +:+
              (match path with [] => "" | _ => fullname path +:+ " " end)
              +:+ firstArg post)))
  end.

(** ** Loading the module *)

(** The [for (const key in customCommands)] loop at the end of the
    alias section; [keys] are the names of the loaded object in the order
    in which the loop visits them. *)
Fixpoint loadLoop (keys : list string) (st : State) : State * Completion :=
  match keys with
  | [] => (st, Normal)
  | key :: rest =>
      match jsGet (customCommands st) key with
      | Undefined => loadLoop rest st
      | Inherited => (st, Throw (notAFunction "customCommands[key].split"))
      | Own v =>
          match addCustomCommand key (Js.split " " v) st with
          | (st1, Normal) => loadLoop rest st1
          | (st1, Throw e) => (st1, Throw e)
          end
      end
  end.

(** The top-level statements of the [commands] namespace, in order:
    the root, [print], [command], the aliases of the alias file, [help].
    [file] is [None] when the alias file does not exist, and otherwise the
    own properties of the object that [yaml.load] returns for it, names to
    expansion lines, in the order of the loop; [stack] is the stack-trace
    setting. The result is the
    state reached and the way the loading completes. *)
Definition loadModule (stack : bool) (file : option (list (string * string)))
    : State * Completion :=
  let root0 := newCommand "" (Some "") (Some "") None in
  match addCommand root0 [] "print" (Some "messages")
          (Some "Prints out messages to the screen") (Some HPrint) with
  | inr e => (mkState root0 ∅ stack [], Throw e)
  | inl r1 =>
      match addCommand r1 [] "command" (Some "alias command")
              (Some "Creates a command alias") (Some HDefineAlias) with
      | inr e => (mkState r1 ∅ stack [], Throw e)
      | inl r2 =>
          let '(st3, c) :=
            match file with
            | None => (mkState r2 ∅ stack [], Normal)
            | Some entries => loadLoop entries.*1 (mkState r2 (list_to_map entries) stack [])
            end in
          match c with
          | Throw e => (st3, Throw e)
          | Normal =>
              match addCommand (rootCommand st3) [] "help" (Some "command, [args]?")
                      (Some "Prints this help message") (Some HHelp) with
              | inl r4 =>
                  (mkState r4 (customCommands st3) (print_stacktrace st3) (trace st3),
                   Normal)
              | inr e => (st3, Throw e)
              end
          end
      end
  end.

(** The tree with [print] and [command] only, as it is when the aliases
    are loaded. *)
Definition earlyRoot : Command :=
  mkCommand "" (Some "") (Some "") None
    (<["command" := commandNode]> (<["print" := printNode]> ∅)).

(** Registering the alias [k] with the expansion read back from the
    table [cc]. *)
Definition replay (cc : gmap string string) (r : Command) (k : string) : Command :=
  withChildren r
    (<[k := aliasNode k (Js.split " " (default "" (cc !! k)))]> (children r)).

(** ** Invariants of the prompt *)

(** Every alias node of the root has its entry in the alias table: the
    expansion of the node joined by spaces. *)
Definition treeInTable (st : State) : Prop :=
  forall nm e,
    children (rootCommand st) !! nm = Some (aliasNode nm e) ->
    customCommands st !! nm = Some (Js.join " " e).

(** The alias table and the alias nodes of the root correspond: a name
    has an entry in the table exactly when the root has an alias node of
    that name, and the entry is the expansion of the node joined by
    spaces. *)
Definition tableMatchesTree (st : State) : Prop :=
  forall nm v,
    customCommands st !! nm = Some v
    <-> exists e, children (rootCommand st) !! nm = Some (aliasNode nm e)
                  /\ Js.join " " e = v.

(** What a dispatch leaves alone in a state that started with setting
    [ps], root handler [h] and output [tr]. *)
Definition framed (ps : bool) (h : option Handler) (tr : list Event) (st : State) : Prop :=
  print_stacktrace st = ps
  /\ handler (rootCommand st) = h
  /\ exists es, trace st = tr ++ es.

(** ** Vocabulary of the tokenizer properties *)

(** [s.includes(c)] for a character [c]. *)
Fixpoint hasChar (c : ascii) (s : string) : bool :=
  match s with
  | "" => false
  | String x s' => bool_decide (x = c) || hasChar c s'
  end.

(** A non-empty word without space and without double quote. *)
Definition plainWord (w : string) : bool :=
  Js.nonEmpty w && negb (hasChar Js.space w) && negb (hasChar Js.dquote w).

(** A non-empty text without double quote and without backslash: what
    can stand between two double quotes. *)
Definition quotable (w : string) : bool :=
  Js.nonEmpty w && negb (hasChar Js.dquote w) && negb (hasChar Js.backslash w).

(** An argument as the user types it: a plain word, or a text between
    double quotes. *)
Inductive Arg :=
  | Plain (t : string)
  | Quoted (w : string).

Definition render (a : Arg) : string :=
  match a with
  | Plain t => t
  | Quoted w => String Js.dquote (w +:+ String Js.dquote "")
  end.

Definition content (a : Arg) : string :=
  match a with
  | Plain t => t
  | Quoted w => w
  end.

Definition okArg (a : Arg) : bool :=
  match a with
  | Plain t => plainWord t
  | Quoted w => quotable w
  end.

(** The first character of [s] as a string, empty when [s] is. *)
Definition hd1 (s : string) : string :=
  match s with
  | "" => ""
  | String c _ => String c ""
  end.

(** * Properties *)

Example initialRoot_loaded : initialRoot = inl promptRoot.
Proof. vm_compute. reflexivity. Qed.

(** ** Strings *)

Lemma append_cons (c : ascii) (a b : string) : String c a +:+ b = String c (a +:+ b).
Proof. reflexivity. Qed.

Lemma append_nil_l (s : string) : "" +:+ s = s.
Proof. reflexivity. Qed.

Lemma append_nil_r (s : string) : s +:+ "" = s.
Proof.
  induction s as [|c s IH]; [reflexivity|].
  rewrite append_cons. by rewrite IH.
Qed.

Lemma append_assoc (a b c : string) : (a +:+ b) +:+ c = a +:+ (b +:+ c).
Proof.
  induction a as [|x a IH]; [reflexivity|].
  rewrite !append_cons. by rewrite IH.
Qed.

Lemma snoc_append (cur : string) (c : ascii) (s : string) :
  Js.snoc cur c +:+ s = cur +:+ String c s.
Proof. unfold Js.snoc. by rewrite append_assoc. Qed.

Example split_amp : Js.split "&&" "a&&&b && c" = ["a"; "&b "; " c"].
Proof. reflexivity. Qed.

Example split_empty : Js.split "&&" "" = [""].
Proof. reflexivity. Qed.

Example splitArgs_plain : splitArgs "  a   b " = ["a"; "b"].
Proof. vm_compute. reflexivity. Qed.

Example splitArgs_quoted :
  splitArgs ("a " +:+ String Js.dquote "b c" +:+ String Js.dquote " d") = ["a"; "b c"; "d"].
Proof. vm_compute. reflexivity. Qed.

Example splitArgs_unterminated :
  splitArgs ("a " +:+ String Js.dquote "b c") = ["a"; "b c"].
Proof. vm_compute. reflexivity. Qed.

(** ** Tokenizer *)

(** A backslash read inside a quoted span with the flag clear sets the
    flag and is not appended. *)
Lemma scanStep_backslash_in_quotes (s : Scan) :
  inString s = true -> escaped s = false ->
  scanStep s Js.backslash = mkScan (args s) true true (cur s).
Proof.
  intros Hq He. unfold scanStep. rewrite Hq, He. reflexivity.
Qed.

(** Outside a quoted span a backslash is an ordinary character. *)
Lemma scanStep_backslash_outside (s : Scan) :
  inString s = false ->
  scanStep s Js.backslash =
    mkScan (args s) false (escaped s) (Js.snoc (cur s) Js.backslash).
Proof.
  intros Hq. unfold scanStep. rewrite Hq.
  destruct (escaped s); reflexivity.
Qed.

(** No branch of the loop clears [escaped]. *)
Lemma scanStep_escaped_kept (s : Scan) (c : ascii) :
  escaped s = true -> escaped (scanStep s c) = true.
Proof.
  intros He. unfold scanStep.
  repeat case_match; cbn [escaped]; first [exact He | reflexivity].
Qed.

(** Once the flag is set inside a quoted span, the rest of the line is
    copied to the current token as it is. *)
Lemma scanLoop_after_escape (w : string) :
  forall s, inString s = true -> escaped s = true ->
  scanLoop s w = mkScan (args s) true true (cur s +:+ w).
Proof.
  induction w as [|c w IH]; intros s Hq He; cbn [scanLoop].
  - rewrite append_nil_r. destruct s; cbn in *; congruence.
  - assert (Hstep : scanStep s c = mkScan (args s) true true (Js.snoc (cur s) c)).
    { unfold scanStep. rewrite Hq, He, !andb_false_r. reflexivity. }
    rewrite Hstep, IH by reflexivity. cbn. by rewrite snoc_append.
Qed.

(** C1, evaluated on the code. On the line a, space, quote, b,
    backslash, quote, c, quote, space, d the tokenizer returns two tokens:
    [a], and the six characters b, quote, c, quote, space, d. It does not
    return the three tokens [a], b-quote-c, [d]: the escape flag raised by
    the backslash is never lowered again, so for every later character the
    flag is still set, the closing quote does not end the span and the
    following space does not end the token. *)
Theorem splitArgs_escaped_quote :
  splitArgs escapedQuoteLine
    = ["a"; "b" +:+ String Js.dquote "c" +:+ String Js.dquote " d"]
  /\ splitArgs escapedQuoteLine <> ["a"; "b" +:+ String Js.dquote "c"; "d"]
  /\ (forall s c, escaped s = true -> escaped (scanStep s c) = true).
Proof.
  split; [vm_compute; reflexivity|].
  split; [vm_compute; discriminate|].
  exact scanStep_escaped_kept.
Qed.


(** ** Property access *)

Lemma jsGet_own {A : Type} (o : gmap string A) (k : string) (a : A) :
  o !! k = Some a -> jsGet o k = Own a.
Proof. intros H. unfold jsGet. by rewrite H. Qed.

Lemma jsGet_undefined {A : Type} (o : gmap string A) (k : string) :
  o !! k = None -> inherited k = false -> jsGet o k = Undefined.
Proof. intros H Hi. unfold jsGet. by rewrite H, Hi. Qed.

Lemma jsGet_inherited {A : Type} (o : gmap string A) (k : string) :
  o !! k = None -> inherited k = true -> jsGet o k = Inherited.
Proof. intros H Hi. unfold jsGet. by rewrite H, Hi. Qed.

Lemma jsGet_Own_inv {A : Type} (o : gmap string A) (k : string) (a : A) :
  jsGet o k = Own a -> o !! k = Some a.
Proof. unfold jsGet. destruct (o !! k); [congruence|]. by destruct (inherited k). Qed.

Lemma jsGet_Undefined_inv {A : Type} (o : gmap string A) (k : string) :
  jsGet o k = Undefined -> o !! k = None /\ inherited k = false.
Proof. unfold jsGet. destruct (o !! k); [done|]. by destruct (inherited k). Qed.

Lemma jsGet_Inherited_inv {A : Type} (o : gmap string A) (k : string) :
  jsGet o k = Inherited -> o !! k = None /\ inherited k = true.
Proof. unfold jsGet. destruct (o !! k); [done|]. by destruct (inherited k). Qed.

Lemma jsGet_empty_undefined {A : Type} (k : string) :
  inherited k = false -> jsGet (∅ : gmap string A) k = Undefined.
Proof. intros H. apply jsGet_undefined; [apply lookup_empty | done]. Qed.

Lemma inherited_undefined : inherited "undefined" = false.
Proof. reflexivity. Qed.

(** ** Resolution in the command tree *)

Lemma findCommand_not_undefined (input : list string) :
  forall this, findCommand this input <> inl None.
Proof.
  induction input as [|t0 rest IH]; intros this; cbn [findCommand]; [done|].
  destruct (jsGet (children this) t0) as [child| |]; [apply IH | done | done].
Qed.

(** What [findCommand] does: it follows a prefix of the input through
    the registered children and stops either at a node of which the next
    token names nothing, which it returns, or at a node where the next
    token names a member of [Object.prototype], where it throws. *)
Lemma findCommand_deepest (input : list string) :
  forall this,
    (exists c pre post,
        findCommand this input = inl (Some c)
        /\ input = pre ++ post
        /\ nodeAt this pre = Some c
        /\ (post = [] \/ jsGet (children c) (firstArg post) = Undefined))
    \/ (exists c pre t rest,
          findCommand this input = inr (notAFunction "child.findCommand")
          /\ input = pre ++ t :: rest
          /\ nodeAt this pre = Some c
          /\ jsGet (children c) t = Inherited).
Proof.
  induction input as [|t0 rest IH]; intros this; cbn [findCommand].
  - left. exists this, [], []. auto.
  - destruct (jsGet (children this) t0) as [child| |] eqn:Hc.
    + apply jsGet_Own_inv in Hc.
      destruct (IH child) as [(c & pre & post & Hf & -> & Hn & Hp)
                             |(c & pre & t & rest' & Hf & -> & Hn & Hp)].
      * left. exists c, (t0 :: pre), post. cbn [nodeAt]. rewrite Hc. auto.
      * right. exists c, (t0 :: pre), t, rest'. cbn [nodeAt]. rewrite Hc. auto.
    + right. exists this, [], t0, rest. auto.
    + left. exists this, [], (t0 :: rest). cbn. auto.
Qed.

Lemma findCommand_plain (input : list string) :
  forall this, Forall (fun t => inherited t = false) input ->
    exists c, findCommand this input = inl (Some c).
Proof.
  induction input as [|t0 rest IH]; intros this Hin; cbn [findCommand]; [by eexists|].
  inversion_clear Hin as [|? ? Ht Hrest].
  unfold jsGet. destruct (children this !! t0) as [child|]; [by apply IH|].
  rewrite Ht. by eexists.
Qed.

(** [sendCommand] never takes its early return. *)
Lemma sendCommand_cases (fuel : nat) (input : string) (st : State) :
  sendCommand fuel input st
  = match findCommand (rootCommand st) (lineTokens input) with
    | inr e => Some (st, Throw e)
    | inl _ => sendCommandBody (dispatchRoot fuel) input st
    end.
Proof.
  unfold sendCommand, sendCommandWith.
  pose proof (findCommand_not_undefined (lineTokens input) (rootCommand st)) as H.
  by destruct (findCommand (rootCommand st) (lineTokens input)) as [[c|]|e].
Qed.

Lemma sendCommand_body (fuel : nat) (input : string) (st : State) (c : Command) :
  findCommand (rootCommand st) (lineTokens input) = inl (Some c) ->
  sendCommand fuel input st = sendCommandBody (dispatchRoot fuel) input st.
Proof. intros H. rewrite sendCommand_cases. by rewrite H. Qed.

Lemma sendCommand_rejects (fuel : nat) (input : string) (st : State) (e : Thrown) :
  findCommand (rootCommand st) (lineTokens input) = inr e ->
  sendCommand fuel input st = Some (st, Throw e).
Proof. intros H. rewrite sendCommand_cases. by rewrite H. Qed.

Lemma handle_child (fuel : nat) (this child : Command) (path : list string)
    (t0 : string) (rest : list string) (st : State) :
  children this !! t0 = Some child ->
  handle (S fuel) this path (t0 :: rest) st = handle fuel child (path ++ [t0]) rest st.
Proof.
  intros H. cbn [handle firstArg slice1 tail]. by rewrite (jsGet_own _ _ _ H).
Qed.

Lemma handle_here (fuel : nat) (this : Command) (h : Handler) (path a : list string)
    (st : State) :
  jsGet (children this) (firstArg a) = Undefined -> handler this = Some h ->
  handle (S fuel) this path a st = runHandler (dispatchRoot fuel) h a st.
Proof. intros Hc Hh. cbn [handle]. by rewrite Hc, Hh. Qed.

Lemma handle_no_handler (fuel : nat) (this : Command) (path a : list string)
    (st : State) :
  jsGet (children this) (firstArg a) = Undefined -> handler this = None ->
  handle (S fuel) this path a st
  = Some (st, Throw (JsError ("No command " +:+
            (match path with [] => "" | _ => fullname path +:+ " " end) +:+ firstArg a))).
Proof. intros Hc Hh. cbn [handle]. by rewrite Hc, Hh. Qed.

Lemma handle_inherited (fuel : nat) (this : Command) (path a : list string) (st : State) :
  jsGet (children this) (firstArg a) = Inherited ->
  handle (S fuel) this path a st = Some (st, Throw (notAFunction "fc.handle")).
Proof. intros Hc. cbn [handle]. by rewrite Hc. Qed.

(** Dispatch descends along the longest prefix that names nodes and
    calls the handler found there on everything that is left. *)
Lemma handle_deepest (pre : list string) :
  forall fuel this path c h t0 rest st,
    nodeAt this pre = Some c ->
    jsGet (children c) t0 = Undefined -> handler c = Some h ->
    handle (List.length pre + S fuel) this path (pre ++ t0 :: rest) st
    = runHandler (dispatchRoot fuel) h (t0 :: rest) st.
Proof.
  induction pre as [|p ps IH]; intros fuel this path c h t0 rest st Hn Hc Hh.
  - cbn in Hn. injection Hn as ->. by apply handle_here.
  - cbn [nodeAt] in Hn. destruct (children this !! p) as [ch|] eqn:Hp; [|done].
    cbn [List.length Nat.add app]. rewrite (handle_child _ _ ch) by done.
    by apply (IH _ _ _ c).
Qed.

(** C5 on the code, at the tokens [toString x] and the root of the
    prompt: [toString] names no child of the root, so the root should be
    the result and the tokens the arguments of its handler; instead
    [findCommand] and [handle] both throw a [TypeError], because the lookup
    in [children] finds the method that every object inherits. *)
Lemma resolution_prototype_name :
  children promptRoot !! "toString" = None
  /\ findCommand promptRoot ["toString"; "x"] = inr (notAFunction "child.findCommand")
  /\ handle 1 promptRoot [] ["toString"; "x"] (initialState false)
     = Some (initialState false, Throw (notAFunction "fc.handle")).
Proof. split; [|split]; vm_compute; reflexivity. Qed.



(** The two resolutions of the tree root -> foo -> bar. *)
Example resolve_foo_bar_baz (st : State) :
  rootCommand st = fooBarRoot ->
  findCommand fooBarRoot ["foo"; "bar"; "baz"] = inl (Some barNode)
  /\ dispatchRoot 3 ["foo"; "bar"; "baz"] st = Some (emit (ELog "baz") st, Normal).
Proof.
  intros Hr. split; [vm_compute; reflexivity|].
  unfold dispatchRoot. rewrite Hr.
  assert (Hn : nodeAt fooBarRoot ["foo"; "bar"] = Some barNode)
    by (vm_compute; reflexivity).
  assert (Hc : jsGet (children barNode) "baz" = Undefined) by (vm_compute; reflexivity).
  exact (handle_deepest ["foo"; "bar"] 0 fooBarRoot [] barNode HPrint "baz" [] st
           Hn Hc eq_refl).
Qed.

Example resolve_foo_qux (st : State) :
  rootCommand st = fooBarRoot ->
  findCommand fooBarRoot ["foo"; "qux"] = inl (Some fooNode)
  /\ dispatchRoot 2 ["foo"; "qux"] st
     = Some (st, Throw (JsError "No command foo qux")).
Proof.
  intros Hr. split; [vm_compute; reflexivity|].
  unfold dispatchRoot. rewrite Hr.
  rewrite (handle_child 1 fooBarRoot fooNode [] "foo" ["qux"] st)
    by (vm_compute; reflexivity).
  rewrite handle_no_handler by (vm_compute; reflexivity). reflexivity.
Qed.

(** C9 on the code, at the token [constructor] and the root of the
    prompt: [findCommand] returns no node, it throws a [TypeError], and
    [sendCommand] rejects with it before it touches the terminal. *)
Lemma findCommand_throws :
  findCommand promptRoot ["constructor"] = inr (notAFunction "child.findCommand")
  /\ sendCommand 5 "constructor" (initialState false)
     = Some (initialState false, Throw (notAFunction "child.findCommand")).
Proof. split; vm_compute; reflexivity. Qed.

(** X24. [findCommand] never returns [undefined]: for every
    node and every token list it either returns a node, the one reached by
    following the longest prefix of the tokens that names registered
    children, or throws a [TypeError], which happens exactly when the
    descent stops at a token that is the name of a member of
    [Object.prototype]; token lists without such names always give a node.
    The test [cmd === undefined] at the head of [sendCommand] therefore
    never succeeds: [sendCommand] either rejects with that [TypeError] or
    runs its body. *)
Theorem findCommand_total :
  (forall this input, findCommand this input <> inl None)
  /\ (forall this input,
        (exists c pre post,
            findCommand this input = inl (Some c)
            /\ input = pre ++ post
            /\ nodeAt this pre = Some c
            /\ (post = [] \/ jsGet (children c) (firstArg post) = Undefined))
        \/ (exists c pre t rest,
              findCommand this input = inr (notAFunction "child.findCommand")
              /\ input = pre ++ t :: rest
              /\ nodeAt this pre = Some c
              /\ jsGet (children c) t = Inherited))
  /\ (forall this input, Forall (fun t => inherited t = false) input ->
        exists c, findCommand this input = inl (Some c))
  /\ (forall fuel input st,
        sendCommand fuel input st
        = match findCommand (rootCommand st) (lineTokens input) with
          | inr e => Some (st, Throw e)
          | inl _ => sendCommandBody (dispatchRoot fuel) input st
          end).
Proof.
  split; [intros this input; apply findCommand_not_undefined|].
  split; [intros this input; apply findCommand_deepest|].
  split; [intros this input; apply findCommand_plain|].
  exact sendCommand_cases.
Qed.

Lemma findCommand_total_witness :
  Forall (fun t => inherited t = false) ["foo"; "bar"; "baz"]
  /\ exists c, findCommand fooBarRoot ["foo"; "bar"; "baz"] = inl (Some c).
Proof.
  assert (H : Forall (fun t => inherited t = false) ["foo"; "bar"; "baz"])
    by (repeat constructor).
  split; [exact H|].
  exact (proj1 (proj2 (proj2 findCommand_total)) fooBarRoot ["foo"; "bar"; "baz"] H).
Defined.

(** ** Splitting a line on the chain separator *)

Lemma startsWith_amp_cons (a b : ascii) (s : string) :
  Js.startsWith "&&" (String a (String b s))
  = bool_decide (a = "&"%char) && bool_decide (b = "&"%char).
Proof.
  cbn.
  destruct (decide ("&"%char = a)) as [<-|Ha];
    [destruct (decide ("&"%char = b)) as [<-|Hb]|].
  - reflexivity.
  - rewrite (bool_decide_eq_false_2 (b = "&"%char)) by congruence.
    apply eq_sym, andb_false_r.
  - by rewrite (bool_decide_eq_false_2 (a = "&"%char)) by congruence.
Qed.

Lemma startsWith_amp_short (a : ascii) : Js.startsWith "&&" (String a "") = false.
Proof. cbn. case_decide; reflexivity. Qed.

Lemma startsWith_amp_inv (s : string) :
  Js.startsWith "&&" s = true -> exists s', s = "&&" +:+ s'.
Proof.
  destruct s as [|a [|b s]]; [discriminate | by rewrite startsWith_amp_short |].
  rewrite startsWith_amp_cons. intros [Ha Hb]%andb_prop.
  apply bool_decide_eq_true_1 in Ha, Hb. subst. by exists s.
Qed.

Lemma split_go_not_nil (sep : string) (s : string) :
  forall k cur, Js.split_go sep k cur s <> [].
Proof.
  induction s as [|c s IH]; intros k cur; cbn [Js.split_go]; [done|].
  destruct k; [|apply IH]. case_match; [done | apply IH].
Qed.

Lemma join_cons (sep x : string) (l : list string) :
  l <> [] -> Js.join sep (x :: l) = x +:+ sep +:+ Js.join sep l.
Proof. destruct l; [done | reflexivity]. Qed.

(** Joining the pieces with the separator gives the line back. The second
    part covers the position just after a matched separator, whose second
    character is still to be skipped. *)
Lemma split_go_join (s : string) :
  (forall cur, Js.join "&&" (Js.split_go "&&" 0 cur s) = cur +:+ s)
  /\ (forall cur c s', s = String c s' ->
        Js.join "&&" (Js.split_go "&&" 1 cur s) = cur +:+ s').
Proof.
  induction s as [|c s [IH0 IH1]]; split.
  - intros cur. cbn. by rewrite append_nil_r.
  - intros cur c s' Hs. discriminate.
  - intros cur. cbn [Js.split_go].
    destruct (Js.startsWith "&&" (String c s)) eqn:Hsw.
    + destruct (startsWith_amp_inv _ Hsw) as [s' Hs'].
      injection Hs' as -> ->.
      rewrite join_cons by apply split_go_not_nil.
      change (String.length "&&" - 1) with 1.
      rewrite (IH1 "" _ s') by reflexivity. reflexivity.
    + rewrite IH0. apply snoc_append.
  - intros cur c' s' Hs. injection Hs as -> ->. cbn [Js.split_go]. apply IH0.
Qed.

Lemma split_join (s : string) : Js.join "&&" (Js.split "&&" s) = s.
Proof. unfold Js.split. by rewrite (proj1 (split_go_join s)). Qed.

Lemma includes_amp_cons (a : ascii) (s : string) :
  Js.includes "&&" (String a s)
  = Js.startsWith "&&" (String a s) || Js.includes "&&" s.
Proof. reflexivity. Qed.

Lemma includes_amp_one (s : string) : Js.includes "&&" (hd1 s) = false.
Proof.
  destruct s as [|c s]; [reflexivity|].
  cbn [hd1]. by rewrite includes_amp_cons, startsWith_amp_short.
Qed.

(** Whether a string starts with the separator depends on its first two
    characters only. *)
Lemma startsWith_amp_append (a : ascii) (x y z : string) (c : ascii) :
  Js.startsWith "&&" (String a (x +:+ String c y))
  = Js.startsWith "&&" (String a (x +:+ String c z)).
Proof.
  destruct x as [|b x]; rewrite ?append_cons, ?append_nil_l;
    by rewrite !startsWith_amp_cons.
Qed.

Lemma includes_snoc_hd1 (x : string) (c : ascii) (s' : string) :
  Js.includes "&&" (x +:+ String c (hd1 s'))
  = Js.includes "&&" (x +:+ String c "") || Js.startsWith "&&" (String c s').
Proof.
  induction x as [|a x IH].
  - rewrite !append_nil_l, !includes_amp_cons, includes_amp_one.
    rewrite startsWith_amp_short. change (Js.includes "&&" "") with false.
    rewrite orb_false_r. cbn [orb].
    destruct s' as [|d s']; cbn [hd1]; [reflexivity|].
    by rewrite !startsWith_amp_cons.
  - rewrite !append_cons, !includes_amp_cons, IH.
    rewrite (startsWith_amp_append a x (hd1 s') "" c).
    by rewrite orb_assoc.
Qed.

Lemma includes_amp_prefix (a b : string) :
  Js.includes "&&" (a +:+ b) = false -> Js.includes "&&" a = false.
Proof.
  induction a as [|x a IH]; [reflexivity|].
  rewrite append_cons, !includes_amp_cons.
  intros [Hsw Hin]%orb_false_elim. rewrite (IH Hin), orb_false_r.
  destruct a as [|y a]; [apply startsWith_amp_short|].
  rewrite append_cons, startsWith_amp_cons in Hsw. by rewrite startsWith_amp_cons.
Qed.

(** No piece produced by the scan contains the separator, provided the
    piece being read, extended by the next character, does not. *)
Lemma split_go_pieces (s : string) :
  (forall cur, Js.includes "&&" (cur +:+ hd1 s) = false ->
     Forall (fun x => Js.includes "&&" x = false) (Js.split_go "&&" 0 cur s))
  /\ (forall cur c s', s = String c s' ->
        Js.includes "&&" (cur +:+ hd1 s') = false ->
        Forall (fun x => Js.includes "&&" x = false) (Js.split_go "&&" 1 cur s)).
Proof.
  induction s as [|c s [IH0 IH1]]; split.
  - intros cur H. cbn in *. rewrite append_nil_r in H. by constructor.
  - intros cur c s' Hs. discriminate.
  - intros cur H. cbn [Js.split_go hd1] in *.
    destruct (Js.startsWith "&&" (String c s)) eqn:Hsw.
    + destruct (startsWith_amp_inv _ Hsw) as [s' Hs'].
      injection Hs' as -> ->. constructor.
      * by apply includes_amp_prefix in H.
      * change (String.length "&&" - 1) with 1.
        apply (IH1 "" "&"%char s'); [reflexivity|]. apply includes_amp_one.
    + apply IH0. rewrite snoc_append, includes_snoc_hd1, H, Hsw. reflexivity.
  - intros cur c' s' Hs H. injection Hs as -> ->. cbn [Js.split_go]. by apply IH0.
Qed.

Lemma split_pieces (s : string) :
  Forall (fun x => Js.includes "&&" x = false) (Js.split "&&" s).
Proof. apply (proj1 (split_go_pieces s)). apply includes_amp_one. Qed.

Lemma statements_command (rest : string) :
  statements ("command" +:+ rest) = ["command" +:+ rest].
Proof. reflexivity. Qed.

Lemma statements_chain (input : string) :
  Js.startsWith "command" input = false -> statements input = Js.split "&&" input.
Proof. intros H. unfold statements. by rewrite H. Qed.

(** C7. A line that begins with [command] is one statement, whatever
    follows, separators included. Every other line is split on the
    two-character separator: the statements are the pieces of
    [input.split('&&')], and joining them with the separator gives the line
    back. Once the line has passed the first [findCommand], [sendCommand]
    runs its loop over exactly these statements. *)
Theorem statements_spec :
  (forall rest, statements ("command" +:+ rest) = ["command" +:+ rest])
  /\ (forall input, Js.startsWith "command" input = false ->
        statements input = Js.split "&&" input
        /\ Js.join "&&" (statements input) = input)
  /\ (forall fuel input st c,
        findCommand (rootCommand st) (lineTokens input) = inl (Some c) ->
        sendCommand fuel input st
        = st1 ← runStatements (dispatchRoot fuel) (statements input)
                   (emit (ESetEnabled false) st);
          Some (emit (ESetEnabled true) st1, Normal)).
Proof.
  split; [exact statements_command|]. split.
  - intros input H. rewrite (statements_chain _ H). split; [done | apply split_join].
  - intros fuel input st c Hf. rewrite (sendCommand_body _ _ _ _ Hf).
    unfold sendCommandBody. by destruct (runStatements _ _ _).
Qed.

Lemma statements_spec_witness :
  Js.startsWith "command" "print a&&print b" = false
  /\ statements "print a&&print b" = ["print a"; "print b"]
  /\ Js.join "&&" (statements "print a&&print b") = "print a&&print b"
  /\ findCommand promptRoot (lineTokens "print a&&print b") = inl (Some printNode)
  /\ sendCommand 2 "print a&&print b" (initialState false)
     = Some (emitAll [ESetEnabled false; ELog "a"; ELog "b"; ESetEnabled true]
               (initialState false), Normal).
Proof.
  split; [reflexivity|]. split; [reflexivity|].
  split; [exact (proj2 (proj1 (proj2 statements_spec) "print a&&print b" eq_refl))|].
  assert (H : findCommand (rootCommand (initialState false))
                (lineTokens "print a&&print b") = inl (Some printNode))
    by (vm_compute; reflexivity).
  split; [exact H|].
  rewrite (proj2 (proj2 statements_spec) 2 "print a&&print b" (initialState false)
             printNode H).
  vm_compute. reflexivity.
Defined.



(** ** Registration *)

Lemma addCommand_duplicate (this : Command) (path : list string) (nm : string)
    (ad descr : option string) (h : option Handler) :
  is_Some (children this !! nm) \/ inherited nm = true ->
  addCommand this path nm ad descr h
  = inr (JsError ("Multiple commands: " +:+ fullname path +:+ "#" +:+ nm)).
Proof.
  intros H. unfold addCommand, jsGet.
  destruct (children this !! nm) as [c|] eqn:Hc; [done|].
  destruct H as [[c Hc']|Hi]; [done|]. by rewrite Hi.
Qed.

Lemma addCommand_fresh (this : Command) (path : list string) (nm : string)
    (ad descr : option string) (h : option Handler) :
  children this !! nm = None -> inherited nm = false ->
  addCommand this path nm ad descr h
  = inl (withChildren this (<[nm := newCommand nm ad descr h]> (children this))).
Proof. intros Hc Hi. unfold addCommand. by rewrite (jsGet_undefined _ _ Hc Hi). Qed.

Lemma addCommandAt_duplicate (path : list string) :
  forall this pre n nm ad descr h,
    nodeAt this path = Some n ->
    is_Some (children n !! nm) \/ inherited nm = true ->
    addCommandAt this pre path nm ad descr h
    = Some (inr (JsError ("Multiple commands: " +:+ fullname (pre ++ path)
                            +:+ "#" +:+ nm))).
Proof.
  induction path as [|p ps IH]; intros this pre n nm ad descr h Hn Hc.
  - cbn in Hn. injection Hn as <-. cbn [addCommandAt].
    by rewrite app_nil_r, addCommand_duplicate.
  - cbn [nodeAt addCommandAt] in *.
    destruct (children this !! p) as [c|]; [|done].
    rewrite (IH c (pre ++ [p]) n) by done. by rewrite <- app_assoc.
Qed.

(** Registering under the node at [path] succeeds when the name is free
    there and is not the name of a member of [Object.prototype].
    Afterwards that node has the new child, and every other node that
    could be reached before can still be reached and has children of the
    same names as before. *)
Lemma addCommandAt_fresh (path : list string) :
  forall this pre n nm ad descr h,
    nodeAt this path = Some n -> children n !! nm = None -> inherited nm = false ->
    exists this',
      addCommandAt this pre path nm ad descr h = Some (inl this')
      /\ nodeAt this' path
         = Some (withChildren n (<[nm := newCommand nm ad descr h]> (children n)))
      /\ forall p2 n2, p2 <> path -> nodeAt this p2 = Some n2 ->
           exists n2', nodeAt this' p2 = Some n2'
                       /\ dom (children n2') = dom (children n2).
Proof.
  induction path as [|p ps IH]; intros this pre n nm ad descr h Hn Hc Hi.
  - cbn in Hn. injection Hn as <-. cbn [addCommandAt].
    rewrite addCommand_fresh by done. eexists. split; [reflexivity|].
    split; [reflexivity|].
    intros [|q qs] n2 Hne Hn2; [done|]. cbn [nodeAt] in *.
    destruct (children this !! q) as [c|] eqn:Hq; [|done].
    exists n2. split; [|done]. cbn [children withChildren].
    rewrite lookup_insert_ne by congruence. by rewrite Hq.
  - cbn [nodeAt addCommandAt] in *.
    destruct (children this !! p) as [c|] eqn:Hp; [|done].
    destruct (IH c (pre ++ [p]) n nm ad descr h Hn Hc Hi) as (c' & -> & Hat & Hfr).
    eexists. split; [reflexivity|]. split.
    + cbn [children withChildren]. by rewrite lookup_insert_eq.
    + intros [|q qs] n2 Hne Hn2; cbn [nodeAt] in *.
      * injection Hn2 as <-. eexists. split; [reflexivity|].
        cbn [children withChildren]. rewrite dom_insert_L.
        apply subseteq_union_1_L, singleton_subseteq_l, elem_of_dom. eauto.
      * cbn [children withChildren].
        destruct (decide (q = p)) as [->|Hqp].
        -- rewrite lookup_insert_eq. rewrite Hp in Hn2.
           apply Hfr; [congruence | done].
        -- rewrite lookup_insert_ne by congruence.
           destruct (children this !! q) as [cq|]; [|done]. by exists n2.
Qed.

(** C8 on the code, at the name [toString]: it is no child of the
    root of the prompt and no child of [print], yet registering it under
    either of these two parents throws the error of a duplicate. *)
Lemma addCommand_prototype_name :
  children promptRoot !! "toString" = None
  /\ addCommand promptRoot [] "toString" None None None
     = inr (JsError "Multiple commands: #toString")
  /\ children printNode !! "toString" = None
  /\ addCommand printNode ["print"] "toString" None None None
     = inr (JsError "Multiple commands: print#toString").
Proof. repeat split; vm_compute; reflexivity. Qed.

(** X23. [addCommand] throws the error
    [Multiple commands: path#name] when the node already has a child of
    that name, and also when the name is that of a member of
    [Object.prototype], which can therefore never be registered. For any
    other name that is free under the node it succeeds, and the node then
    has exactly one more child, the new node; registering the same name
    there again then fails. Such a name that is free under two different
    nodes of the tree can be registered under both, one after the other,
    and both registrations succeed. *)
Theorem addCommand_registration :
  (forall this path nm ad descr h,
      is_Some (children this !! nm) \/ inherited nm = true ->
      addCommand this path nm ad descr h
      = inr (JsError ("Multiple commands: " +:+ fullname path +:+ "#" +:+ nm)))
  /\ (forall this path nm ad descr h,
        children this !! nm = None -> inherited nm = false ->
        exists this',
          addCommand this path nm ad descr h = inl this'
          /\ children this' = <[nm := newCommand nm ad descr h]> (children this)
          /\ size (children this') = S (size (children this))
          /\ forall ad' descr' h',
               addCommand this' path nm ad' descr' h'
               = inr (JsError ("Multiple commands: " +:+ fullname path +:+ "#" +:+ nm)))
  /\ (forall root p1 p2 n1 n2 nm ad descr h ad' descr' h',
        p1 <> p2 -> inherited nm = false ->
        nodeAt root p1 = Some n1 -> children n1 !! nm = None ->
        nodeAt root p2 = Some n2 -> children n2 !! nm = None ->
        exists r1 r2,
          addCommandAt root [] p1 nm ad descr h = Some (inl r1)
          /\ addCommandAt r1 [] p2 nm ad' descr' h' = Some (inl r2)
          /\ addCommandAt r1 [] p1 nm ad' descr' h'
             = Some (inr (JsError ("Multiple commands: " +:+ fullname p1
                                     +:+ "#" +:+ nm)))).
Proof.
  split; [exact addCommand_duplicate|]. split.
  - intros this path nm ad descr h Hc Hi. eexists.
    split; [by apply addCommand_fresh|]. split; [reflexivity|]. split.
    + cbn [children withChildren]. by apply map_size_insert_None.
    + intros ad' descr' h'. apply addCommand_duplicate. left.
      cbn [children withChildren]. rewrite lookup_insert_eq. by eexists.
  - intros root p1 p2 n1 n2 nm ad descr h ad' descr' h' Hne Hi H1 Hc1 H2 Hc2.
    destruct (addCommandAt_fresh p1 root [] n1 nm ad descr h H1 Hc1 Hi)
      as (r1 & Hr1 & Hat1 & Hfr).
    destruct (Hfr p2 n2 (not_eq_sym Hne) H2) as (n2' & Hn2' & Hdom).
    assert (Hc2' : children n2' !! nm = None).
    { apply not_elem_of_dom. rewrite Hdom. by apply not_elem_of_dom. }
    destruct (addCommandAt_fresh p2 r1 [] n2' nm ad' descr' h' Hn2' Hc2' Hi)
      as (r2 & Hr2 & _).
    exists r1, r2. split; [exact Hr1|]. split; [exact Hr2|].
    apply (addCommandAt_duplicate p1 r1 [] _ nm ad' descr' h' Hat1). left.
    cbn [children withChildren]. rewrite lookup_insert_eq. by eexists.
Qed.

Lemma addCommand_registration_witness :
  (is_Some (children fooBarRoot !! "foo") \/ inherited "foo" = true)
  /\ addCommand fooBarRoot [] "foo" None None None
     = inr (JsError "Multiple commands: #foo")
  /\ exists r1 r2,
       addCommandAt fooBarRoot [] [] "x" None None None = Some (inl r1)
       /\ addCommandAt r1 [] ["foo"] "x" None None None = Some (inl r2)
       /\ addCommandAt r1 [] [] "x" None None None
          = Some (inr (JsError "Multiple commands: #x")).
Proof.
  assert (H0 : is_Some (children fooBarRoot !! "foo") \/ inherited "foo" = true)
    by (left; exists fooNode; vm_compute; reflexivity).
  split; [exact H0|]. split.
  - exact (proj1 addCommand_registration fooBarRoot [] "foo" None None None H0).
  - refine (proj2 (proj2 addCommand_registration) fooBarRoot [] ["foo"]
              fooBarRoot fooNode "x" None None None None None None _ _ _ _ _ _).
    + discriminate.
    + reflexivity.
    + reflexivity.
    + vm_compute; reflexivity.
    + vm_compute; reflexivity.
    + vm_compute; reflexivity.
Defined.

(** ** The statement loop *)

Lemma runStatements_cons (dispatch : list string -> State -> option (State * Completion))
    (com : string) (rest : list string) (st st1 : State) (c : Completion) :
  dispatch (splitArgs com) st = Some (st1, c) ->
  runStatements dispatch (com :: rest) st = runStatements dispatch rest (report c st1).
Proof. intros H. cbn [runStatements]. by rewrite H. Qed.

Lemma runStatements_app (dispatch : list string -> State -> option (State * Completion))
    (l1 l2 : list string) :
  forall st,
    runStatements dispatch (l1 ++ l2) st
    = st1 ← runStatements dispatch l1 st; runStatements dispatch l2 st1.
Proof.
  induction l1 as [|com l1 IH]; intros st; [reflexivity|].
  cbn [app runStatements].
  destruct (dispatch (splitArgs com) st) as [[st1 c]|]; [apply IH | reflexivity].
Qed.

Lemma runStatements_foldl (dispatch : list string -> State -> option (State * Completion))
    (coms : list string) :
  forall st, runStatements dispatch coms st = foldl (runStatement dispatch) (Some st) coms.
Proof.
  induction coms as [|com coms IH]; intros st; [reflexivity|].
  cbn [runStatements foldl]. unfold runStatement at 2. cbn [mbind option_bind].
  destruct (dispatch (splitArgs com) st) as [[st1 c]|]; cbn; [apply IH|].
  clear. induction coms as [|x coms IH]; [reflexivity | exact IH].
Qed.

(** ** Fuel *)

Lemma runStatements_extends d1 d2 (coms : list string) :
  extends d1 d2 ->
  forall st st', runStatements d1 coms st = Some st' -> runStatements d2 coms st = Some st'.
Proof.
  intros Hd. induction coms as [|com coms IH]; intros st st'; cbn [runStatements]; [done|].
  destruct (d1 (splitArgs com) st) as [[st1 c]|] eqn:H1; [|done].
  rewrite (Hd _ _ _ H1). apply IH.
Qed.

Lemma sendCommandWith_extends d1 d2 (input : string) (st : State) r :
  extends d1 d2 ->
  sendCommandWith d1 input st = Some r -> sendCommandWith d2 input st = Some r.
Proof.
  intros Hd. unfold sendCommandWith, sendCommandBody.
  destruct (findCommand _ _) as [[c|]|e]; [|done|done].
  destruct (runStatements d1 _ _) as [st1|] eqn:H1; [|done].
  by rewrite (runStatements_extends d1 d2 _ Hd _ _ H1).
Qed.

Lemma runHandler_extends d1 d2 (h : Handler) (a : list string) (st : State) r :
  extends d1 d2 ->
  runHandler d1 h a st = Some r -> runHandler d2 h a st = Some r.
Proof.
  intros Hd. destruct h; cbn [runHandler]; try done.
  by apply sendCommandWith_extends.
Qed.

(** More fuel never changes a result that was reached. *)
Lemma handle_fuel_mono (fuel : nat) :
  forall this path a st r,
    handle fuel this path a st = Some r -> handle (S fuel) this path a st = Some r.
Proof.
  induction fuel as [|fuel IH]; intros this path a st r; [done|].
  intros H. cbn [handle] in H. cbn [handle].
  destruct (jsGet (children this) (firstArg a)) as [fc| |]; [by apply IH|done|].
  destruct (handler this) as [h|]; [|done].
  revert H. apply runHandler_extends.
  intros a' st' r'. apply IH.
Qed.

Lemma sendCommand_fuel_mono (fuel k : nat) (input : string) (st : State) r :
  sendCommand fuel input st = Some r -> sendCommand (fuel + k) input st = Some r.
Proof.
  induction k as [|k IH]; [by rewrite Nat.add_0_r|].
  intros H. rewrite Nat.add_succ_r.
  revert IH. unfold sendCommand. intros IH.
  apply (sendCommandWith_extends (dispatchRoot (fuel + k))); [|by apply IH].
  intros a s r'. apply handle_fuel_mono.
Qed.

(** ** Statement isolation *)

(** C6 on the code, at the line [toString && print hi]: the first
    [findCommand] of [sendCommand], which is outside the [try], throws on
    the inherited name; [sendCommand] rejects, nothing is printed and the
    second statement is never dispatched. *)
Lemma prototype_line_dispatches_nothing :
  sendCommand 5 "toString && print hi" (initialState false)
  = Some (initialState false, Throw (notAFunction "child.findCommand")).
Proof. vm_compute. reflexivity. Qed.

(** X22. When the line passes the first [findCommand] of
    [sendCommand], its statements are tokenized and dispatched one after
    the other, in order: the line is a left fold of tokenize, dispatch and
    report over its statements, between disabling and enabling the input
    surface; and when a statement of the line throws, all the statements
    after it are still dispatched. When that first [findCommand] throws,
    [sendCommand] rejects before any statement is dispatched. On the line
    [bad && print hi] the unknown command is reported and [hi] is
    printed. *)
Theorem statement_isolation (fuel : nat) (input : string) (st : State) :
  (forall c, findCommand (rootCommand st) (lineTokens input) = inl (Some c) ->
     sendCommand fuel input st
     = s1 ← foldl (runStatement (dispatchRoot fuel))
               (Some (emit (ESetEnabled false) st)) (statements input);
       Some (emit (ESetEnabled true) s1, Normal))
  /\ (forall c pre com post s0 s1 e,
        findCommand (rootCommand st) (lineTokens input) = inl (Some c) ->
        statements input = pre ++ com :: post ->
        runStatements (dispatchRoot fuel) pre (emit (ESetEnabled false) st) = Some s0 ->
        dispatchRoot fuel (splitArgs com) s0 = Some (s1, Throw e) ->
        sendCommand fuel input st
        = s2 ← runStatements (dispatchRoot fuel) post (report (Throw e) s1);
          Some (emit (ESetEnabled true) s2, Normal))
  /\ (forall e, findCommand (rootCommand st) (lineTokens input) = inr e ->
        sendCommand fuel input st = Some (st, Throw e))
  /\ (forall stack,
        sendCommand 2 "bad && print hi" (initialState stack)
        = Some (emitAll [ESetEnabled false; EError (JsError "No command bad") stack;
                         ELog "hi"; ESetEnabled true] (initialState stack), Normal)).
Proof.
  split; [|split; [|split]].
  - intros c Hf. rewrite (sendCommand_body _ _ _ _ Hf). unfold sendCommandBody.
    rewrite runStatements_foldl. by destruct (foldl _ _ _).
  - intros c pre com post s0 s1 e Hf Hs Hpre Hd.
    rewrite (sendCommand_body _ _ _ _ Hf). unfold sendCommandBody.
    rewrite Hs, runStatements_app, Hpre. cbn [mbind option_bind].
    rewrite (runStatements_cons _ _ _ _ _ _ Hd).
    by destruct (runStatements _ post _).
  - intros e Hf. by apply sendCommand_rejects.
  - intros [|]; vm_compute; reflexivity.
Qed.

Lemma statement_isolation_witness :
  findCommand (rootCommand (initialState false)) (lineTokens "bad && print hi")
  = inl (Some promptRoot)
  /\ statements "bad && print hi" = [] ++ "bad " :: [" print hi"]
  /\ dispatchRoot 2 (splitArgs "bad ") (emit (ESetEnabled false) (initialState false))
     = Some (emit (ESetEnabled false) (initialState false),
             Throw (JsError "No command bad"))
  /\ sendCommand 2 "bad && print hi" (initialState false)
     = s2 ← runStatements (dispatchRoot 2) [" print hi"]
               (report (Throw (JsError "No command bad"))
                  (emit (ESetEnabled false) (initialState false)));
       Some (emit (ESetEnabled true) s2, Normal).
Proof.
  assert (H1 : findCommand (rootCommand (initialState false))
                 (lineTokens "bad && print hi") = inl (Some promptRoot))
    by (vm_compute; reflexivity).
  assert (H2 : statements "bad && print hi" = [] ++ "bad " :: [" print hi"])
    by reflexivity.
  assert (H3 : dispatchRoot 2 (splitArgs "bad ")
                 (emit (ESetEnabled false) (initialState false))
               = Some (emit (ESetEnabled false) (initialState false),
                       Throw (JsError "No command bad")))
    by (vm_compute; reflexivity).
  split; [exact H1|]. split; [exact H2|]. split; [exact H3|].
  exact (proj1 (proj2 (statement_isolation 2 "bad && print hi" (initialState false)))
           promptRoot [] "bad " [" print hi"] _ _ _ H1 H2 eq_refl H3).
Defined.

(** ** Failures *)

Lemma hasMessage_no_command (s : string) : hasMessage (JsError ("No command " +:+ s)) = true.
Proof. reflexivity. Qed.

(** C3 on the code: a failure that is not reported. The handler of
    [boom] throws a value without message: the statement fails, the
    [catch] clause prints nothing, and the line leaves no output but the
    disabling and the enabling of the input surface. *)
Lemma failure_without_message :
  dispatchRoot 2 (splitArgs "boom") boomState = Some (boomState, Throw JsOther)
  /\ sendCommand 2 "boom" boomState
     = Some (emitAll [ESetEnabled false; ESetEnabled true] boomState, Normal).
Proof. repeat split; vm_compute; reflexivity. Qed.

(** C3, amended. When the dispatch of a statement throws [e] inside
    the loop of [sendCommand], the [catch] clause prints [e] on the error
    sink if [e] is an error with a non-empty message, and prints nothing
    otherwise; in both cases the loop goes on with the next statement. The
    error thrown for an unknown command always has a message. A line that
    has passed the first [findCommand] of [sendCommand] is processed by
    disabling the input surface, running the loop, and enabling the input
    surface again: [sendCommand] returns as soon as the statements of the
    line have completed, normally or by throwing, and its last action is
    to enable the input surface. *)
Theorem failure_reporting
    (fuel : nat) (com : string) (rest : list string) (st st1 : State) (e : Thrown) :
  dispatchRoot fuel (splitArgs com) st = Some (st1, Throw e) ->
  runStatements (dispatchRoot fuel) (com :: rest) st
  = runStatements (dispatchRoot fuel) rest
      (if hasMessage e then emit (EError e (print_stacktrace st1)) st1 else st1)
  /\ (forall s, hasMessage (JsError ("No command " +:+ s)) = true)
  /\ (forall input s c,
        findCommand (rootCommand s) (lineTokens input) = inl (Some c) ->
        sendCommand fuel input s
        = s1 ← runStatements (dispatchRoot fuel) (statements input)
                  (emit (ESetEnabled false) s);
          Some (emit (ESetEnabled true) s1, Normal)).
Proof.
  intros H. split; [by rewrite (runStatements_cons _ _ _ _ _ _ H)|].
  split; [exact hasMessage_no_command|].
  intros input s c Hf. rewrite (sendCommand_body _ _ _ c Hf).
  unfold sendCommandBody. by destruct (runStatements _ _ _).
Qed.

Lemma failure_reporting_witness :
  dispatchRoot 2 (splitArgs "bad") (initialState false)
  = Some (initialState false, Throw (JsError "No command bad"))
  /\ runStatements (dispatchRoot 2) ["bad"] (initialState false)
     = Some (emit (EError (JsError "No command bad") false) (initialState false))
  /\ sendCommand 2 "bad" (initialState false)
     = Some (emitAll [ESetEnabled false; EError (JsError "No command bad") false;
                      ESetEnabled true] (initialState false), Normal).
Proof.
  assert (H : dispatchRoot 2 (splitArgs "bad") (initialState false)
              = Some (initialState false, Throw (JsError "No command bad")))
    by (vm_compute; reflexivity).
  split; [exact H|].
  split; [exact (proj1 (failure_reporting 2 "bad" [] _ _ _ H))|].
  rewrite (proj2 (proj2 (failure_reporting 2 "bad" [] _ _ _ H))
             "bad" (initialState false) promptRoot eq_refl).
  vm_compute. reflexivity.
Defined.

(** ** Blank lines *)

Lemma startsWith_command_spaces (n : nat) : Js.startsWith "command" (spaces n) = false.
Proof. destruct n; reflexivity. Qed.

Lemma split_go_spaces (n : nat) :
  forall cur, Js.split_go "&&" 0 cur (spaces n) = [cur +:+ spaces n].
Proof.
  induction n as [|n IH]; intros cur; cbn [spaces Js.split_go].
  - by rewrite append_nil_r.
  - change (Js.startsWith "&&" (String Js.space (spaces n))) with false.
    cbn iota. by rewrite IH, snoc_append.
Qed.

Lemma statements_spaces (n : nat) : statements (spaces n) = [spaces n].
Proof.
  unfold statements. rewrite startsWith_command_spaces.
  unfold Js.split. by rewrite split_go_spaces.
Qed.

Lemma scanLoop_spaces (n : nat) :
  forall s, inString s = false -> cur s = "" ->
  scanLoop s (spaces n) = mkScan (args s ++ repeat "" n) false (escaped s) "".
Proof.
  induction n as [|n IH]; intros s Hq Hc; cbn [spaces scanLoop repeat].
  - rewrite app_nil_r. destruct s; cbn in *; congruence.
  - assert (Hstep : scanStep s Js.space
                    = mkScan (args s ++ [""]) false (escaped s) "").
    { unfold scanStep. rewrite Hq, Hc. reflexivity. }
    rewrite Hstep, IH by reflexivity. cbn [args escaped].
    by rewrite <- app_assoc.
Qed.

Lemma splitArgs_spaces (n : nat) : splitArgs (spaces n) = [].
Proof.
  unfold splitArgs. rewrite scanLoop_spaces by reflexivity.
  cbn. induction n as [|n IH]; [reflexivity | exact IH].
Qed.

Lemma lineTokens_spaces (n : nat) : lineTokens (spaces n) = [].
Proof.
  unfold lineTokens, Js.split.
  assert (H : Js.split_go " " 0 "" (spaces n) = repeat "" (S n)).
  { induction n as [|n IH]; [reflexivity|].
    cbn [spaces Js.split_go]. change (Js.startsWith " " (String Js.space (spaces n))) with true.
    cbn iota. cbn [String.length Nat.sub]. by rewrite IH. }
  rewrite H. clear H. generalize (S n) as m.
  induction m as [|m IH]; [reflexivity | exact IH].
Qed.

(** C2 on the code: a blank line is not a no-op. In the prompt as loaded,
    dispatching no token at the root throws, and [sendCommand] prints the
    error. *)
Lemma blank_line_reports_error :
  dispatchRoot 1 (splitArgs "") (initialState false)
  = Some (initialState false, Throw (JsError "No command undefined"))
  /\ (fun r => trace r.1) <$> sendCommand 1 "" (initialState false)
     = Some [ESetEnabled false; EError (JsError "No command undefined") false;
             ESetEnabled true].
Proof. split; vm_compute; reflexivity. Qed.

(** C2, amended. When the root has no handler and no child named
    [undefined], dispatching the empty token sequence at the root throws
    the error [No command undefined] and changes nothing; a line made of
    spaces only, the empty line included, makes [sendCommand] print that
    error between disabling and enabling the input surface, and nothing
    else happens: no handler runs, the tree and the aliases stay as they
    were. *)
Theorem blank_line_dispatch (fuel : nat) (n : nat) (st : State) :
  handler (rootCommand st) = None ->
  children (rootCommand st) !! "undefined" = None ->
  dispatchRoot (S fuel) [] st = Some (st, Throw (JsError "No command undefined"))
  /\ sendCommand (S fuel) (spaces n) st
     = Some (emit (ESetEnabled true)
              (emit (EError (JsError "No command undefined") (print_stacktrace st))
                (emit (ESetEnabled false) st)), Normal).
Proof.
  intros Hh Hc.
  assert (Hd : forall s, rootCommand s = rootCommand st ->
             dispatchRoot (S fuel) [] s
             = Some (s, Throw (JsError "No command undefined"))).
  { intros s Hs. unfold dispatchRoot. rewrite Hs.
    rewrite handle_no_handler; [done| |done].
    by apply jsGet_undefined. }
  split; [by apply Hd|].
  rewrite (sendCommand_body _ _ _ (rootCommand st)) by (by rewrite lineTokens_spaces).
  unfold sendCommandBody.
  rewrite statements_spaces. cbn [runStatements].
  rewrite splitArgs_spaces, Hd by reflexivity. reflexivity.
Qed.

Lemma blank_line_dispatch_witness :
  handler (rootCommand (initialState true)) = None
  /\ children (rootCommand (initialState true)) !! "undefined" = None
  /\ sendCommand 1 "   " (initialState true)
     = Some (emit (ESetEnabled true)
              (emit (EError (JsError "No command undefined") true)
                (emit (ESetEnabled false) (initialState true))), Normal).
Proof.
  assert (H : children (rootCommand (initialState true)) !! "undefined" = None)
    by (vm_compute; reflexivity).
  split; [reflexivity|]. split; [exact H|].
  exact (proj2 (blank_line_dispatch 0 3 (initialState true) eq_refl H)).
Defined.

(** ** Aliases *)

Lemma withChildren_id (this : Command) : withChildren this (children this) = this.
Proof. by destruct this. Qed.

Lemma removeCommand_withChildren (this : Command) (nm : string) :
  removeCommand this nm = withChildren this (delete nm (children this)).
Proof.
  unfold removeCommand. destruct (jsGet (children this) nm) eqn:H; [done|done|].
  apply jsGet_Undefined_inv in H as [H _]. by rewrite delete_id, withChildren_id.
Qed.

Lemma removeCommand_children (this : Command) (nm : string) :
  children (removeCommand this nm) = delete nm (children this).
Proof. by rewrite removeCommand_withChildren. Qed.

Lemma removeCommand_lookup (this : Command) (nm : string) :
  children (removeCommand this nm) !! nm = None.
Proof. rewrite removeCommand_children. apply lookup_delete_eq. Qed.

Lemma removeCommand_then_add (this : Command) (nm : string) (path : list string)
    (ad descr : option string) (h : option Handler) :
  inherited nm = false ->
  addCommand (removeCommand this nm) path nm ad descr h
  = inl (withChildren this (<[nm := newCommand nm ad descr h]> (children this))).
Proof.
  intros Hi. rewrite addCommand_fresh by (apply removeCommand_lookup || done).
  rewrite removeCommand_withChildren. unfold withChildren at 1.
  cbn [name argDesc description handler children withChildren].
  by rewrite insert_delete_eq.
Qed.

Lemma inherited_not_proto (nm : string) : inherited nm = false -> nm <> "__proto__".
Proof. intros H ->. discriminate. Qed.

Lemma jsSet_plain (o : gmap string string) (k v : string) :
  inherited k = false -> jsSet o k v = <[k := v]> o.
Proof.
  intros H. unfold jsSet. by rewrite decide_False by by apply inherited_not_proto.
Qed.

(** For a name that is not a member of [Object.prototype],
    [addCustomCommand] overwrites the child of that name and the entry of
    the table. *)
Lemma addCustomCommand_closed (nm : string) (expansion : list string) (st : State) :
  inherited nm = false ->
  addCustomCommand nm expansion st
  = (mkState
       (withChildren (rootCommand st)
          (<[nm := aliasNode nm expansion]> (children (rootCommand st))))
       (<[nm := Js.join " " expansion]> (customCommands st))
       (print_stacktrace st)
       (trace st ++ [EWrite commandfile
                       (<[nm := Js.join " " expansion]> (customCommands st))]),
     Normal).
Proof.
  intros Hi. unfold addCustomCommand.
  by rewrite removeCommand_then_add, jsSet_plain.
Qed.

(** For the name of a member of [Object.prototype] it assigns the
    table entry, writes the file, and then throws: [delete] has not freed
    the name. *)
Lemma addCustomCommand_inherited (nm : string) (expansion : list string) (st : State) :
  inherited nm = true ->
  addCustomCommand nm expansion st
  = (mkState
       (withChildren (rootCommand st) (delete nm (children (rootCommand st))))
       (jsSet (customCommands st) nm (Js.join " " expansion))
       (print_stacktrace st)
       (trace st ++ [EWrite commandfile
                       (jsSet (customCommands st) nm (Js.join " " expansion))]),
     Throw (JsError ("Multiple commands: #" +:+ nm))).
Proof.
  intros Hi. unfold addCustomCommand.
  rewrite addCommand_duplicate by by right.
  by rewrite removeCommand_withChildren.
Qed.

Lemma addCustomCommand_registers (nm : string) (expansion : list string) (st : State) :
  inherited nm = false ->
  exists st1,
    addCustomCommand nm expansion st = (st1, Normal)
    /\ children (rootCommand st1) !! nm = Some (aliasNode nm expansion)
    /\ customCommands st1 = <[nm := Js.join " " expansion]> (customCommands st)
    /\ trace st1 = trace st ++ [EWrite commandfile (customCommands st1)].
Proof.
  intros Hi. rewrite addCustomCommand_closed by done.
  eexists. split; [reflexivity|]. cbn [rootCommand customCommands trace].
  split; [|done]. cbn [children withChildren]. apply lookup_insert_eq.
Qed.

(** Dispatching an alias name runs [sendCommand] on the expansion and
    the runtime arguments, joined by spaces, in the state of the moment,
    and completes as that [sendCommand] does. *)
Lemma alias_handle (fuel : nat) (st : State) (nm : string)
    (expansion runArgs : list string) :
  children (rootCommand st) !! nm = Some (aliasNode nm expansion) ->
  inherited (firstArg runArgs) = false ->
  dispatchRoot (S (S fuel)) (nm :: runArgs) st
  = sendCommand fuel (Js.join " " (expansion ++ runArgs)) st.
Proof.
  intros H Hi. unfold dispatchRoot at 1.
  rewrite (handle_child _ _ _ _ _ _ _ H).
  rewrite (handle_here _ _ (HAlias expansion));
    [reflexivity | by apply jsGet_empty_undefined | reflexivity].
Qed.

Lemma alias_handle_inherited (fuel : nat) (st : State) (nm : string)
    (expansion runArgs : list string) :
  children (rootCommand st) !! nm = Some (aliasNode nm expansion) ->
  inherited (firstArg runArgs) = true ->
  dispatchRoot (S (S fuel)) (nm :: runArgs) st
  = Some (st, Throw (notAFunction "fc.handle")).
Proof.
  intros H Hi. unfold dispatchRoot at 1.
  rewrite (handle_child _ _ _ _ _ _ _ H).
  apply handle_inherited. apply jsGet_inherited; [apply lookup_empty | done].
Qed.

(** C4 on the code: the two dispatches are not identical. With [move]
    a command that prints its arguments and [go] defined as [move north],
    dispatching [go fast] prints the same message as dispatching
    [move north fast], but it also disables and enables the input
    surface around it. *)
Lemma alias_not_identical :
  dispatchRoot 4 ["go"; "fast"] goState
  = Some (emitAll [ESetEnabled false; ELog "north fast"; ESetEnabled true] goState, Normal)
  /\ dispatchRoot 4 ["move"; "north"; "fast"] goState
     = Some (emit (ELog "north fast") goState, Normal)
  /\ dispatchRoot 4 ["go"; "fast"] goState
     <> dispatchRoot 4 ["move"; "north"; "fast"] goState.
Proof.
  split; [vm_compute; reflexivity|]. split; [vm_compute; reflexivity|].
  vm_compute. intros [=].
Qed.

(** C4, amended. For a name that is not the name of a member of
    [Object.prototype], [addCustomCommand(nm, expansion)] succeeds and
    leaves under the root a node [nm] whose handler, called with runtime
    arguments, runs [sendCommand] on the expansion tokens followed by the
    runtime arguments, joined by single spaces, against the tree as it is
    at that moment, and completes as that [sendCommand] does; this is what
    dispatching the name followed by runtime arguments does when the first
    of them is not the name of a member of [Object.prototype]. For [go]
    defined as [move north], dispatching [go fast]
    is therefore the dispatch of [move north fast] inside a nested
    [sendCommand]: the same dispatch, wrapped in one more disable/enable
    of the input surface, and with a failure of that dispatch caught and
    reported there, so that the alias itself completes normally. *)
Theorem alias_expansion :
  (forall nm expansion s, inherited nm = false ->
      exists s1,
        addCustomCommand nm expansion s = (s1, Normal)
        /\ children (rootCommand s1) !! nm = Some (aliasNode nm expansion))
  /\ (forall fuel st nm expansion runArgs,
        children (rootCommand st) !! nm = Some (aliasNode nm expansion) ->
        inherited (firstArg runArgs) = false ->
        dispatchRoot (S (S fuel)) (nm :: runArgs) st
        = sendCommand fuel (Js.join " " (expansion ++ runArgs)) st)
  /\ (forall fuel st,
        children (rootCommand st) !! "go" = Some (aliasNode "go" ["move"; "north"]) ->
        dispatchRoot (S (S fuel)) ["go"; "fast"] st
        = r ← dispatchRoot fuel ["move"; "north"; "fast"] (emit (ESetEnabled false) st);
          Some (emit (ESetEnabled true) (report r.2 r.1), Normal)).
Proof.
  split.
  { intros nm expansion s Hi.
    destruct (addCustomCommand_registers nm expansion s Hi) as (s1 & H1 & H2 & _).
    by exists s1. }
  split.
  { intros fuel st nm expansion runArgs H Hi. by apply alias_handle. }
  intros fuel st H.
  rewrite (alias_handle fuel st "go" ["move"; "north"] ["fast"] H eq_refl).
  change (Js.join " " (["move"; "north"] ++ ["fast"])) with "move north fast".
  destruct (findCommand_plain ["move"; "north"; "fast"] (rootCommand st)) as [c Hc];
    [repeat constructor|].
  rewrite (sendCommand_body _ _ _ c) by exact Hc. unfold sendCommandBody.
  change (statements "move north fast") with ["move north fast"].
  cbn [runStatements].
  replace (splitArgs "move north fast") with ["move"; "north"; "fast"]
    by (vm_compute; reflexivity).
  by destruct (dispatchRoot fuel _ _) as [[s1 c']|].
Qed.

Lemma alias_expansion_witness :
  children (rootCommand goState) !! "go" = Some (aliasNode "go" ["move"; "north"])
  /\ dispatchRoot 4 ["go"; "fast"] goState
     = r ← dispatchRoot 2 ["move"; "north"; "fast"] (emit (ESetEnabled false) goState);
       Some (emit (ESetEnabled true) (report r.2 r.1), Normal).
Proof.
  assert (H : children (rootCommand goState) !! "go"
              = Some (aliasNode "go" ["move"; "north"]))
    by (vm_compute; reflexivity).
  split; [exact H|].
  exact (proj2 (proj2 alias_expansion) 2 goState H).
Defined.

(** * Further properties of the tokenizer *)

Lemma scanLoop_app (a b : string) :
  forall s, scanLoop s (a +:+ b) = scanLoop (scanLoop s a) b.
Proof.
  induction a as [|c a IH]; intros s; [reflexivity|].
  rewrite append_cons. cbn [scanLoop]. apply IH.
Qed.

Lemma hasChar_cons_false (c x : ascii) (s : string) :
  hasChar c (String x s) = false -> x <> c /\ hasChar c s = false.
Proof.
  cbn [hasChar]. intros [H1 H2]%orb_false_elim.
  split; [exact (bool_decide_eq_false_1 _ H1) | done].
Qed.

Lemma scanStep_plain (s : Scan) (c : ascii) :
  c <> Js.dquote -> c <> Js.backslash \/ inString s = false ->
  c <> Js.space \/ inString s = true ->
  scanStep s c = mkScan (args s) (inString s) (escaped s) (Js.snoc (cur s) c).
Proof.
  intros Hq Hb Hs. unfold scanStep.
  rewrite (bool_decide_eq_false_2 (c = Js.dquote)) by done. cbn [andb].
  assert (H2 : bool_decide (c = Js.backslash) && inString s = false).
  { destruct Hb as [Hb|Hb];
      [by rewrite (bool_decide_eq_false_2 (c = Js.backslash))|].
    rewrite Hb. apply andb_false_r. }
  rewrite H2. cbn [andb].
  assert (H3 : bool_decide (c = Js.space) && negb (inString s) = false).
  { destruct Hs as [Hs|Hs];
      [by rewrite (bool_decide_eq_false_2 (c = Js.space))|].
    rewrite Hs. apply andb_false_r. }
  by rewrite H3.
Qed.

(** Outside a quoted span, characters other than space and double quote
    are appended to the current token. *)
Lemma scanLoop_outside (w : string) :
  forall s, inString s = false ->
    hasChar Js.space w = false -> hasChar Js.dquote w = false ->
    scanLoop s w = mkScan (args s) false (escaped s) (cur s +:+ w).
Proof.
  induction w as [|c w IH]; intros s Hin Hs Hq.
  - cbn [scanLoop]. rewrite append_nil_r. destruct s; cbn in *; congruence.
  - apply hasChar_cons_false in Hs as [Hs1 Hs2].
    apply hasChar_cons_false in Hq as [Hq1 Hq2].
    cbn [scanLoop]. rewrite scanStep_plain by auto.
    rewrite IH by (cbn; auto). cbn [args escaped cur]. by rewrite snoc_append.
Qed.

(** Inside a quoted span, with the flag clear, characters other than
    double quote and backslash are appended, spaces included. *)
Lemma scanLoop_inside (w : string) :
  forall s, inString s = true ->
    hasChar Js.dquote w = false -> hasChar Js.backslash w = false ->
    scanLoop s w = mkScan (args s) true (escaped s) (cur s +:+ w).
Proof.
  induction w as [|c w IH]; intros s Hin Hq Hb.
  - cbn [scanLoop]. rewrite append_nil_r. destruct s; cbn in *; congruence.
  - apply hasChar_cons_false in Hq as [Hq1 Hq2].
    apply hasChar_cons_false in Hb as [Hb1 Hb2].
    cbn [scanLoop]. rewrite scanStep_plain by auto.
    rewrite IH by (cbn; auto). cbn [args escaped cur]. by rewrite snoc_append.
Qed.

Lemma scanStep_quote (s : Scan) :
  escaped s = false ->
  scanStep s Js.dquote = mkScan (args s) (negb (inString s)) false (cur s).
Proof. intros He. unfold scanStep. rewrite He. reflexivity. Qed.

Lemma scanStep_space (s : Scan) :
  inString s = false ->
  scanStep s Js.space = mkScan (args s ++ [cur s]) false (escaped s) "".
Proof. intros Hin. unfold scanStep. rewrite Hin. reflexivity. Qed.

Lemma plainWord_inv (t : string) :
  plainWord t = true ->
  Js.nonEmpty t = true /\ hasChar Js.space t = false /\ hasChar Js.dquote t = false.
Proof.
  unfold plainWord. intros [[H1 H2]%andb_prop H3]%andb_prop.
  by rewrite negb_true_iff in H2, H3.
Qed.

Lemma quotable_inv (w : string) :
  quotable w = true ->
  Js.nonEmpty w = true /\ hasChar Js.dquote w = false /\ hasChar Js.backslash w = false.
Proof.
  unfold quotable. intros [[H1 H2]%andb_prop H3]%andb_prop.
  by rewrite negb_true_iff in H2, H3.
Qed.

(** Reading one argument, plain or quoted, from outside a quoted span
    appends its content to the current token and ends outside. *)
Lemma scanLoop_render (a : Arg) (s : Scan) :
  inString s = false -> escaped s = false -> okArg a = true ->
  scanLoop s (render a) = mkScan (args s) false false (cur s +:+ content a).
Proof.
  intros Hin He Hok. destruct a as [t|w]; cbn [render content okArg] in *.
  - apply plainWord_inv in Hok as (_ & Hs & Hq).
    rewrite scanLoop_outside by done. by rewrite He.
  - apply quotable_inv in Hok as (_ & Hq & Hb).
    cbn [scanLoop]. rewrite scanStep_quote, Hin by done. cbn [negb].
    rewrite scanLoop_app, (scanLoop_inside w (mkScan (args s) true false (cur s)) eq_refl Hq Hb).
    cbn [scanLoop args inString escaped cur]. by rewrite scanStep_quote.
Qed.

Lemma nonEmpty_ltb (x : string) : (0 <? String.length x)%nat = Js.nonEmpty x.
Proof. destruct x; reflexivity. Qed.

Lemma filter_nonEmpty_all (l : list string) :
  Forall (fun x => Js.nonEmpty x = true) l ->
  filter (fun x => Is_true (Js.nonEmpty x)) l = l.
Proof.
  induction 1 as [|x l Hx _ IH]; [reflexivity|].
  rewrite filter_cons_True by (by rewrite Hx). by rewrite IH.
Qed.

Lemma okArg_content (a : Arg) : okArg a = true -> Js.nonEmpty (content a) = true.
Proof.
  destruct a; cbn [okArg content]; intros H.
  - by apply plainWord_inv in H as (? & _).
  - by apply quotable_inv in H as (? & _).
Qed.

(** Reading arguments separated by single spaces. *)
Lemma scanLoop_args (l : list Arg) :
  forall a s, inString s = false -> escaped s = false -> cur s = "" ->
    Forall (fun x => okArg x = true) (a :: l) ->
    let r := scanLoop s (Js.join " " (map render (a :: l))) in
    inString r = false /\ escaped r = false
    /\ args r ++ [cur r] = args s ++ map content (a :: l)
    /\ Js.nonEmpty (cur r) = true.
Proof.
  induction l as [|b l IH]; intros a s Hin He Hc Hok; inversion_clear Hok as [|? ? Ha Hl].
  - cbn [map Js.join]. cbv zeta. rewrite scanLoop_render by done.
    cbn [args inString escaped cur]. rewrite Hc, append_nil_l.
    by rewrite okArg_content.
  - change (Js.join " " (map render (a :: b :: l)))
      with (render a +:+ String Js.space (Js.join " " (map render (b :: l)))).
    cbv zeta. rewrite scanLoop_app, scanLoop_render by done.
    cbn [scanLoop]. rewrite scanStep_space by reflexivity.
    cbn [args inString escaped cur].
    destruct (IH b (mkScan (args s ++ [cur s +:+ content a]) false false "")
                eq_refl eq_refl eq_refl Hl) as (H1 & H2 & H3 & H4).
    cbv zeta in *. cbn [args] in H3.
    rewrite H1, H2, H3, H4, Hc, append_nil_l, <- app_assoc. done.
Qed.

Lemma splitArgs_contents (l : list Arg) :
  Forall (fun x => okArg x = true) l ->
  splitArgs (Js.join " " (map render l)) = map content l.
Proof.
  intros Hok. destruct l as [|a l]; [reflexivity|].
  unfold splitArgs.
  pose proof (scanLoop_args l a scanInit eq_refl eq_refl eq_refl Hok)
    as (_ & _ & H3 & H4).
  cbv zeta in *. rewrite nonEmpty_ltb, H4, H3. cbn [scanInit args app].
  apply filter_nonEmpty_all.
  apply Forall_fmap. eapply Forall_impl; [exact Hok|].
  intros x. apply okArg_content.
Qed.

Lemma splitArgs_plain_join (tokens : list string) :
  Forall (fun t => plainWord t = true) tokens ->
  splitArgs (Js.join " " tokens) = tokens.
Proof.
  intros H.
  assert (Hm : map render (map Plain tokens) = tokens).
  { clear. induction tokens as [|t l IH]; [reflexivity|]. cbn [map]. by rewrite IH. }
  assert (Hc : map content (map Plain tokens) = tokens).
  { clear. induction tokens as [|t l IH]; [reflexivity|]. cbn [map]. by rewrite IH. }
  rewrite <- Hm at 1. rewrite <- Hc at 2. apply splitArgs_contents.
  apply Forall_fmap. eapply Forall_impl; [exact H|]. by intros x.
Qed.

(** X1. A line made of arguments separated by single spaces, each a
    plain word or a text between double quotes, is tokenized to the
    contents of these arguments: the quotes are removed and a quoted text
    stays one token with its spaces. *)
Theorem splitArgs_render (l : list Arg) :
  Forall (fun x => okArg x = true) l ->
  splitArgs (Js.join " " (map render l)) = map content l.
Proof. intros Hok. rewrite splitArgs_contents by exact Hok. reflexivity. Qed.

Lemma splitArgs_render_witness :
  splitArgs (Js.join " " (map render [Plain "print"; Quoted "hello  world"; Plain "a&&b"]))
  = ["print"; "hello  world"; "a&&b"].
Proof.
  apply (splitArgs_render [Plain "print"; Quoted "hello  world"; Plain "a&&b"]).
  repeat constructor.
Defined.

Lemma scan_record (s : Scan) :
  inString s = false -> escaped s = false -> cur s = "" ->
  s = mkScan (args s) false false "".
Proof. destruct s; cbn; congruence. Qed.

(** Reading arguments and then one more piece of text [y]. *)
Lemma scanLoop_args_then (l : list Arg) (y : string) :
  forall s, inString s = false -> escaped s = false -> cur s = "" ->
    Forall (fun x => okArg x = true) l ->
    scanLoop s (Js.join " " (map render l ++ [y]))
    = scanLoop (mkScan (args s ++ map content l) false false "") y.
Proof.
  induction l as [|a l IH]; intros s Hin He Hc Hok.
  - cbn [map app Js.join]. rewrite app_nil_r. by rewrite <- scan_record.
  - inversion_clear Hok as [|? ? Ha Hl]. cbn [map app].
    rewrite join_cons by (by destruct (map render l)).
    change (" " +:+ ?x) with (String Js.space x).
    rewrite scanLoop_app, scanLoop_render by done.
    cbn [scanLoop]. rewrite scanStep_space by reflexivity.
    cbn [args inString escaped cur].
    rewrite IH by done. cbn [args].
    by rewrite Hc, append_nil_l, <- app_assoc.
Qed.

Lemma filter_nonEmpty_app (l : list string) (x : string) :
  Forall (fun t => Js.nonEmpty t = true) l ->
  filter (fun t => Is_true (Js.nonEmpty t))
    (if (0 <? String.length x)%nat then l ++ [x] else l)
  = l ++ (if Js.nonEmpty x then [x] else []).
Proof.
  intros Hl. rewrite nonEmpty_ltb. destruct (Js.nonEmpty x) eqn:Hx.
  - apply filter_nonEmpty_all. apply Forall_app. split; [done|]. by constructor.
  - rewrite app_nil_r. by apply filter_nonEmpty_all.
Qed.

Lemma okArg_contents (l : list Arg) :
  Forall (fun x => okArg x = true) l ->
  Forall (fun t => Js.nonEmpty t = true) (map content l).
Proof.
  intros Hok. apply Forall_fmap. eapply Forall_impl; [exact Hok|].
  intros x. apply okArg_content.
Qed.

(** X2. A double quote that is never closed takes the rest of the
    line: after well-formed arguments, an opening quote followed by a text
    without quote and backslash gives that text as the last token, spaces
    included, and no error. *)
Theorem splitArgs_unterminated_quote (l : list Arg) (w : string) :
  Forall (fun x => okArg x = true) l -> quotable w = true ->
  splitArgs (Js.join " " (map render l ++ [String Js.dquote w])) = map content l ++ [w].
Proof.
  intros Hok Hw. apply quotable_inv in Hw as (Hne & Hq & Hb).
  unfold splitArgs. rewrite scanLoop_args_then by done.
  cbn [scanLoop scanInit args app]. rewrite scanStep_quote by reflexivity.
  cbn [args inString escaped cur negb].
  rewrite (scanLoop_inside w (mkScan (map content l) true false "") eq_refl Hq Hb).
  cbv zeta. cbn [args cur]. rewrite append_nil_l.
  rewrite filter_nonEmpty_app by by apply okArg_contents. by rewrite Hne.
Qed.

Lemma splitArgs_unterminated_quote_witness :
  splitArgs (Js.join " " (map render [Plain "print"] ++ [String Js.dquote "b c"]))
  = ["print"; "b c"].
Proof.
  apply (splitArgs_unterminated_quote [Plain "print"] "b c");
    [repeat constructor | reflexivity].
Defined.

(** X3. A backslash inside a quoted span ends the tokenization of the
    line: the backslash is dropped and everything after it, whatever it
    is, is appended to the token being read, up to the end of the line. *)
Theorem splitArgs_backslash_in_quotes (l : list Arg) (w rest : string) :
  Forall (fun x => okArg x = true) l ->
  hasChar Js.dquote w = false -> hasChar Js.backslash w = false ->
  splitArgs (Js.join " "
    (map render l ++ [String Js.dquote (w +:+ String Js.backslash rest)]))
  = map content l ++ (if Js.nonEmpty (w +:+ rest) then [w +:+ rest] else []).
Proof.
  intros Hok Hq Hb.
  unfold splitArgs. rewrite scanLoop_args_then by done.
  cbn [scanLoop scanInit args app]. rewrite scanStep_quote by reflexivity.
  cbn [args inString escaped cur negb]. rewrite scanLoop_app.
  rewrite (scanLoop_inside w (mkScan (map content l) true false "") eq_refl Hq Hb).
  cbn [scanLoop args cur escaped]. rewrite append_nil_l.
  rewrite scanStep_backslash_in_quotes by reflexivity.
  rewrite scanLoop_after_escape by reflexivity.
  cbv zeta. cbn [args cur].
  by rewrite filter_nonEmpty_app by by apply okArg_contents.
Qed.

Lemma splitArgs_backslash_in_quotes_witness :
  splitArgs (Js.join " " (map render [Plain "a"]
      ++ [String Js.dquote ("b" +:+ String Js.backslash "n c d")]))
  = ["a"; "bn c d"].
Proof.
  apply (splitArgs_backslash_in_quotes [Plain "a"] "b" "n c d");
    [repeat constructor | reflexivity | reflexivity].
Defined.

Lemma startsWith_space_cons (c : ascii) (s : string) :
  Js.startsWith " " (String c s) = bool_decide (c = Js.space).
Proof.
  cbn. destruct (decide (" "%char = c)) as [<-|Hc]; [reflexivity|].
  by rewrite bool_decide_eq_false_2 by (intros ->; by apply Hc).
Qed.

(** On a line without double quote the loop of [splitArgs] cuts exactly
    where [split(' ')] does. *)
Lemma scanLoop_split (line : string) :
  forall s, inString s = false -> hasChar Js.dquote line = false ->
    args (scanLoop s line) ++ [cur (scanLoop s line)]
    = args s ++ Js.split_go " " 0 (cur s) line.
Proof.
  induction line as [|c line IH]; intros s Hin Hq; [reflexivity|].
  apply hasChar_cons_false in Hq as [Hq1 Hq2].
  cbn [scanLoop Js.split_go]. rewrite startsWith_space_cons.
  destruct (decide (c = Js.space)) as [->|Hs].
  - rewrite bool_decide_eq_true_2 by done. rewrite scanStep_space by done.
    rewrite IH by done. cbn [args cur String.length Nat.sub].
    by rewrite <- app_assoc.
  - rewrite bool_decide_eq_false_2 by done.
    rewrite scanStep_plain by auto. by rewrite IH.
Qed.

(** X4. On a line that contains no double quote, [splitArgs] returns
    the non-empty pieces of [line.split(' ')]. *)
Theorem splitArgs_without_quotes (line : string) :
  hasChar Js.dquote line = false ->
  splitArgs line = filter (fun x => Is_true (Js.nonEmpty x)) (Js.split " " line).
Proof.
  intros Hq. unfold splitArgs, Js.split. cbv zeta.
  pose proof (scanLoop_split line scanInit eq_refl Hq) as H.
  cbn [scanInit args cur app] in H. rewrite <- H, nonEmpty_ltb.
  destruct (Js.nonEmpty (cur (scanLoop scanInit line))) eqn:Hc; [reflexivity|].
  rewrite filter_app, filter_cons_False by (rewrite Hc; intros []).
  by rewrite filter_nil, app_nil_r.
Qed.

Lemma splitArgs_without_quotes_witness :
  splitArgs "  build  data   --fast " = ["build"; "data"; "--fast"]
  /\ Js.split " " "  build  data   --fast "
     = [""; ""; "build"; ""; "data"; ""; ""; "--fast"; ""].
Proof.
  split; [|reflexivity].
  rewrite (splitArgs_without_quotes "  build  data   --fast " eq_refl).
  vm_compute. reflexivity.
Defined.

(** * Further properties of the command tree *)

(** X5. [removeCommand] detaches the named child and with it every
    node below it, leaves the other children alone, and does nothing when
    the name is not registered. It leaves the name free for an
    [addCommand] right after it, which then succeeds, unless the name is
    that of a member of [Object.prototype]: [delete] cannot free such a
    name and the [addCommand] throws. *)
Theorem removeCommand_detaches (this : Command) (nm : string) :
  (forall rest, nodeAt (removeCommand this nm) (nm :: rest) = None)
  /\ (forall k rest, k <> nm ->
        nodeAt (removeCommand this nm) (k :: rest) = nodeAt this (k :: rest))
  /\ (children this !! nm = None -> removeCommand this nm = this)
  /\ (forall path ad descr h, inherited nm = false ->
        addCommand (removeCommand this nm) path nm ad descr h
        = inl (withChildren this (<[nm := newCommand nm ad descr h]> (children this))))
  /\ (forall path ad descr h, inherited nm = true ->
        addCommand (removeCommand this nm) path nm ad descr h
        = inr (JsError ("Multiple commands: " +:+ fullname path +:+ "#" +:+ nm))).
Proof.
  split; [|split; [|split; [|split]]].
  - intros rest. cbn [nodeAt]. by rewrite removeCommand_lookup.
  - intros k rest Hk. cbn [nodeAt].
    by rewrite removeCommand_children, lookup_delete_ne.
  - intros H. rewrite removeCommand_withChildren, delete_id by done.
    apply withChildren_id.
  - intros path ad descr h Hi. by apply removeCommand_then_add.
  - intros path ad descr h Hi. apply addCommand_duplicate. by right.
Qed.

Lemma removeCommand_detaches_witness :
  nodeAt (removeCommand fooBarRoot "foo") ["foo"; "bar"] = None
  /\ nodeAt (removeCommand fooNode "qux") ["bar"] = nodeAt fooNode ["bar"]
  /\ removeCommand fooNode "qux" = fooNode
  /\ addCommand (removeCommand fooBarRoot "foo") [] "foo" None None None
     = inl (withChildren fooBarRoot
              (<["foo" := newCommand "foo" None None None]> (children fooBarRoot)))
  /\ addCommand (removeCommand fooBarRoot "valueOf") [] "valueOf" None None None
     = inr (JsError "Multiple commands: #valueOf").
Proof.
  split; [exact (proj1 (removeCommand_detaches fooBarRoot "foo") ["bar"])|].
  split; [|split; [|split]].
  - apply (proj1 (proj2 (removeCommand_detaches fooNode "qux"))). discriminate.
  - apply (proj1 (proj2 (proj2 (removeCommand_detaches fooNode "qux")))).
    vm_compute. reflexivity.
  - apply (proj1 (proj2 (proj2 (proj2 (removeCommand_detaches fooBarRoot "foo"))))).
    reflexivity.
  - apply (proj2 (proj2 (proj2 (proj2 (removeCommand_detaches fooBarRoot "valueOf")))) []).
    reflexivity.
Defined.

(** X6. Removing a command that was just registered, under a free name
    that is not the name of a member of [Object.prototype], gives back the
    node as it was before the registration. *)
Theorem addCommand_then_remove (this : Command) (path : list string) (nm : string)
    (ad descr : option string) (h : option Handler) :
  children this !! nm = None -> inherited nm = false ->
  exists this', addCommand this path nm ad descr h = inl this'
                /\ removeCommand this' nm = this.
Proof.
  intros H Hi. eexists. split; [by apply addCommand_fresh|].
  rewrite removeCommand_withChildren. cbn [children withChildren].
  rewrite delete_insert_id by done. unfold withChildren.
  cbn [name argDesc description handler]. by destruct this.
Qed.

Lemma addCommand_then_remove_witness :
  children fooBarRoot !! "x" = None /\ inherited "x" = false
  /\ exists this', addCommand fooBarRoot [] "x" None None None = inl this'
                   /\ removeCommand this' "x" = fooBarRoot.
Proof.
  assert (H : children fooBarRoot !! "x" = None) by (vm_compute; reflexivity).
  split; [exact H|]. split; [reflexivity|].
  exact (addCommand_then_remove fooBarRoot [] "x" None None None H eq_refl).
Defined.

Lemma handle_stop (fuel : nat) (c : Command) (path post : list string) (st : State) :
  jsGet (children c) (firstArg post) = Undefined ->
  handle (S fuel) c path post st = stopOutcome fuel c path post st.
Proof.
  intros Hc. unfold stopOutcome. destruct (handler c) as [h|] eqn:Hh.
  - by apply handle_here.
  - by apply handle_no_handler.
Qed.

Lemma handle_walk (pre : list string) :
  forall fuel this path c post st,
    nodeAt this pre = Some c ->
    handle (List.length pre + fuel) this path (pre ++ post) st
    = handle fuel c (path ++ pre) post st.
Proof.
  induction pre as [|p ps IH]; intros fuel this path c post st Hn.
  - cbn in Hn. injection Hn as ->. by rewrite app_nil_r.
  - cbn [nodeAt] in Hn. destruct (children this !! p) as [ch|] eqn:Hp; [|done].
    cbn [List.length Nat.add app]. rewrite (handle_child _ _ ch) by done.
    rewrite (IH _ _ _ c) by done. by rewrite <- app_assoc.
Qed.

Lemma handle_descent (pre : list string) (fuel : nat) (this : Command)
    (path : list string) (c : Command) (post : list string) (st : State) :
  nodeAt this pre = Some c ->
  jsGet (children c) (firstArg post) = Undefined ->
  handle (List.length pre + S fuel) this path (pre ++ post) st
  = stopOutcome fuel c (path ++ pre) post st.
Proof.
  intros Hn Hc. rewrite (handle_walk pre _ _ _ c) by done. by apply handle_stop.
Qed.

Lemma findCommand_walk (pre : list string) :
  forall this c post,
    nodeAt this pre = Some c -> findCommand this (pre ++ post) = findCommand c post.
Proof.
  induction pre as [|p pre IH]; intros this c post Hn; cbn [nodeAt app] in *.
  - by injection Hn as ->.
  - cbn [findCommand]. destruct (children this !! p) as [ch|] eqn:Hp; [|done].
    rewrite (jsGet_own _ _ _ Hp). by apply IH.
Qed.

Lemma findCommand_stop (pre : list string) (this c : Command) (post : list string) :
  nodeAt this pre = Some c ->
  post = [] \/ jsGet (children c) (firstArg post) = Undefined ->
  findCommand this (pre ++ post) = inl (Some c).
Proof.
  intros Hn Hp. rewrite (findCommand_walk pre _ c) by done.
  destruct post as [|t rest]; [done|].
  destruct Hp as [?|Hp]; [done|]. cbn [findCommand firstArg] in *. by rewrite Hp.
Qed.

(** X7. [handle] and [findCommand] resolve alike. When the tokens are
    names that lead through registered children to a node, followed by a
    rest whose first token names nothing on that node, [findCommand]
    returns the node and [handle] calls its handler on the rest; for an
    empty rest this asks that the node has no child whose name is the text
    [undefined]. When the first token of the rest is instead the name of a
    member of [Object.prototype], both throw a [TypeError]. *)
Theorem dispatch_at_findCommand (this c : Command) (pre : list string) :
  nodeAt this pre = Some c ->
  (forall post, jsGet (children c) (firstArg post) = Undefined ->
     findCommand this (pre ++ post) = inl (Some c)
     /\ forall fuel path st h, handler c = Some h ->
          handle (List.length pre + S fuel) this path (pre ++ post) st
          = runHandler (dispatchRoot fuel) h post st)
  /\ (forall t rest, jsGet (children c) t = Inherited ->
        findCommand this (pre ++ t :: rest) = inr (notAFunction "child.findCommand")
        /\ forall fuel path st,
             handle (List.length pre + S fuel) this path (pre ++ t :: rest) st
             = Some (st, Throw (notAFunction "fc.handle"))).
Proof.
  intros Hn. split.
  - intros post Hc. split; [apply findCommand_stop; auto|].
    intros fuel path st h Hh.
    rewrite (handle_descent pre fuel this path c post st Hn Hc).
    unfold stopOutcome. by rewrite Hh.
  - intros t rest Hc. split.
    + rewrite (findCommand_walk pre _ c) by done. cbn [findCommand]. by rewrite Hc.
    + intros fuel path st. rewrite (handle_walk pre _ _ _ c) by done.
      by apply handle_inherited.
Qed.

Lemma dispatch_at_findCommand_witness :
  findCommand fooBarRoot ["foo"; "bar"; "baz"] = inl (Some barNode)
  /\ (forall st, handle 3 fooBarRoot [] ["foo"; "bar"; "baz"] st
                 = Some (emit (ELog "baz") st, Normal))
  /\ findCommand fooBarRoot ["foo"; "bar"; "toString"]
     = inr (notAFunction "child.findCommand")
  /\ (forall st, handle 3 fooBarRoot [] ["foo"; "bar"; "toString"] st
                 = Some (st, Throw (notAFunction "fc.handle"))).
Proof.
  assert (H1 : nodeAt fooBarRoot ["foo"; "bar"] = Some barNode)
    by (vm_compute; reflexivity).
  assert (H2 : jsGet (children barNode) (firstArg ["baz"]) = Undefined)
    by (vm_compute; reflexivity).
  assert (H3 : jsGet (children barNode) "toString" = Inherited)
    by (vm_compute; reflexivity).
  destruct (dispatch_at_findCommand fooBarRoot barNode ["foo"; "bar"] H1) as [Ha Hb].
  destruct (Ha ["baz"] H2) as [Hf Hh]. destruct (Hb "toString" [] H3) as [Hf' Hh'].
  split; [exact Hf|]. split; [intros st; exact (Hh 0 [] st HPrint eq_refl)|].
  split; [exact Hf'|]. intros st. exact (Hh' 0 [] st).
Defined.

(** X8. When the descent stops on a node without handler, at a token
    that names nothing on it, nothing is run and nothing changes:
    [handle] throws the error [No command] followed by the names on the
    way to that node and by the first token that was not consumed. *)
Theorem unknown_command (this c : Command) (pre post path : list string)
    (fuel : nat) (st : State) :
  nodeAt this pre = Some c ->
  jsGet (children c) (firstArg post) = Undefined ->
  handler c = None ->
  handle (List.length pre + S fuel) this path (pre ++ post) st
  = Some (st, Throw (JsError ("No command " +:+
            (match (path ++ pre)%list with
             | [] => ""
             | _ => fullname (path ++ pre)%list +:+ " "
             end)
            +:+ firstArg post))).
Proof.
  intros Hn Hc Hh. rewrite (handle_descent pre fuel this path c post st Hn Hc).
  unfold stopOutcome. by rewrite Hh.
Qed.

Lemma unknown_command_witness :
  handle 2 fooBarRoot [] ["foo"; "qux"; "z"] (initialState false)
  = Some (initialState false, Throw (JsError "No command foo qux")).
Proof.
  assert (H1 : nodeAt fooBarRoot ["foo"] = Some fooNode) by (vm_compute; reflexivity).
  assert (H2 : jsGet (children fooNode) (firstArg ["qux"; "z"]) = Undefined)
    by (vm_compute; reflexivity).
  exact (unknown_command fooBarRoot fooNode ["foo"] ["qux"; "z"] [] 0
           (initialState false) H1 H2 eq_refl).
Defined.

(** * Further properties of the built-in commands *)

Lemma helpWalk_found (a : list string) :
  forall cur path c,
    nodeAt cur a = Some c -> helpWalk cur path a = inl (EPrintCommand (path ++ a)).
Proof.
  induction a as [|arg a IH]; intros cur path c Hn; cbn [helpWalk nodeAt] in *.
  - by rewrite app_nil_r.
  - destruct (children cur !! arg) as [ch|] eqn:Hc; [|done].
    rewrite (jsGet_own _ _ _ Hc).
    rewrite (IH ch (path ++ [arg]) c Hn). by rewrite <- app_assoc.
Qed.

Lemma helpWalk_walk (pre : list string) :
  forall cur path c post,
    nodeAt cur pre = Some c ->
    helpWalk cur path (pre ++ post) = helpWalk c (path ++ pre) post.
Proof.
  induction pre as [|p pre IH]; intros cur path c post Hn; cbn [helpWalk nodeAt app] in *.
  - injection Hn as ->. by rewrite app_nil_r.
  - destruct (children cur !! p) as [ch|] eqn:Hc; [|done].
    rewrite (jsGet_own _ _ _ Hc).
    rewrite (IH ch (path ++ [p]) c post Hn). by rewrite <- app_assoc.
Qed.

(** X9. [help] follows its arguments exactly, where dispatch is
    greedy. When they name a node, the listing of that node is printed.
    When they do not and the first name that is no child names nothing,
    [help] prints a warning with the names followed so far and that name
    and ignores the rest; in both cases it completes normally and changes
    neither the tree nor the aliases. When the first name that is no child
    is the name of a member of [Object.prototype], [help] prints nothing
    and throws a [TypeError]: from [printCommand] when it was the last
    argument, from the next step of the walk otherwise. *)
Theorem help_exact (dispatch : list string -> State -> option (State * Completion))
    (st : State) :
  (forall a c, nodeAt (rootCommand st) a = Some c ->
     runHandler dispatch HHelp a st = Some (emit (EPrintCommand a) st, Normal))
  /\ (forall pre c t rest,
        nodeAt (rootCommand st) pre = Some c -> jsGet (children c) t = Undefined ->
        runHandler dispatch HHelp (pre ++ t :: rest) st
        = Some (emit (EWarn (fullname pre +:+ " has no child command " +:+ t)) st,
                Normal))
  /\ (forall pre c t rest,
        nodeAt (rootCommand st) pre = Some c -> jsGet (children c) t = Inherited ->
        runHandler dispatch HHelp (pre ++ t :: rest) st
        = Some (st, Throw (match rest with
                           | [] => cannotConvert
                           | arg :: _ => cannotRead arg
                           end))).
Proof.
  split; [|split].
  - intros a c Hn. cbn [runHandler]. by rewrite (helpWalk_found a _ [] c Hn).
  - intros pre c t rest Hn Hc. cbn [runHandler].
    rewrite (helpWalk_walk pre _ [] c _ Hn). cbn [helpWalk app]. by rewrite Hc.
  - intros pre c t rest Hn Hc. cbn [runHandler].
    rewrite (helpWalk_walk pre _ [] c _ Hn). cbn [helpWalk app]. rewrite Hc.
    by destruct rest.
Qed.

Lemma help_exact_witness :
  runHandler (dispatchRoot 0) HHelp ["print"] (initialState false)
  = Some (emit (EPrintCommand ["print"]) (initialState false), Normal)
  /\ runHandler (dispatchRoot 0) HHelp ["print"; "x"; "y"] (initialState false)
     = Some (emit (EWarn "print has no child command x") (initialState false), Normal)
  /\ runHandler (dispatchRoot 0) HHelp ["print"; "valueOf"] (initialState false)
     = Some (initialState false, Throw cannotConvert)
  /\ runHandler (dispatchRoot 0) HHelp ["toString"; "x"] (initialState false)
     = Some (initialState false, Throw (cannotRead "x")).
Proof.
  destruct (help_exact (dispatchRoot 0) (initialState false)) as (H1 & H2 & H3).
  split; [|split; [|split]].
  - apply (H1 ["print"] printNode). vm_compute. reflexivity.
  - apply (H2 ["print"] printNode "x" ["y"]); vm_compute; reflexivity.
  - apply (H3 ["print"] printNode "valueOf" []); vm_compute; reflexivity.
  - apply (H3 [] promptRoot "toString" ["x"]); vm_compute; reflexivity.
Defined.

(** X10. Defining an alias is an overwrite, and fails only on the name
    of a member of [Object.prototype]. For every other name, whatever was
    registered under the name at the root, a built-in command or an earlier
    alias, is replaced by a fresh alias node without children; every other
    command stays; the expansion, joined by spaces, is recorded under the
    name, and the whole alias table is written once to the alias file;
    defining the same name again leaves the tree and the table as if only
    the last definition had been made. For the name of a member of
    [Object.prototype] that is not registered, the table is assigned and
    written to the file as well, and then [addCommand] throws
    [Multiple commands]: the tree is left as it was, without the alias. *)
Theorem addCustomCommand_overwrites (nm : string) (expansion : list string) (st : State) :
  let st1 := fst (addCustomCommand nm expansion st) in
  (inherited nm = false ->
   snd (addCustomCommand nm expansion st) = Normal
   /\ children (rootCommand st1) !! nm = Some (aliasNode nm expansion)
   /\ (forall k, k <> nm -> children (rootCommand st1) !! k = children (rootCommand st) !! k)
   /\ customCommands st1 = <[nm := Js.join " " expansion]> (customCommands st)
   /\ trace st1 = trace st ++ [EWrite commandfile (customCommands st1)]
   /\ (forall e0,
         let st0 := fst (addCustomCommand nm e0 st) in
         rootCommand (fst (addCustomCommand nm expansion st0)) = rootCommand st1
         /\ customCommands (fst (addCustomCommand nm expansion st0)) = customCommands st1))
  /\ (inherited nm = true -> children (rootCommand st) !! nm = None ->
      snd (addCustomCommand nm expansion st)
      = Throw (JsError ("Multiple commands: #" +:+ nm))
      /\ rootCommand st1 = rootCommand st
      /\ customCommands st1 = jsSet (customCommands st) nm (Js.join " " expansion)
      /\ trace st1 = trace st ++ [EWrite commandfile (customCommands st1)]).
Proof.
  cbv zeta. split.
  - intros Hi. rewrite addCustomCommand_closed by done.
    cbn [fst snd rootCommand customCommands trace].
    split; [done|]. split; [cbn [children withChildren]; apply lookup_insert_eq|].
    split; [intros k Hk; cbn [children withChildren]; by rewrite lookup_insert_ne|].
    split; [done|]. split; [done|].
    intros e0. rewrite !addCustomCommand_closed by done.
    cbn [fst rootCommand customCommands children withChildren].
    unfold withChildren. cbn [name argDesc description handler].
    by rewrite !insert_insert_eq.
  - intros Hi Hn. rewrite addCustomCommand_inherited by done.
    cbn [fst snd rootCommand customCommands trace].
    split; [done|]. split; [|done].
    rewrite delete_id by done. apply withChildren_id.
Qed.

Lemma addCustomCommand_overwrites_witness :
  children (rootCommand (fst (addCustomCommand "print" ["help"] (initialState false))))
    !! "print" = Some (aliasNode "print" ["help"])
  /\ children (rootCommand (fst (addCustomCommand "print" ["help"] (initialState false))))
       !! "help" = Some helpNode
  /\ snd (addCustomCommand "toString" ["help"] (initialState false))
     = Throw (JsError "Multiple commands: #toString")
  /\ rootCommand (fst (addCustomCommand "toString" ["help"] (initialState false)))
     = promptRoot.
Proof.
  pose proof (addCustomCommand_overwrites "print" ["help"] (initialState false)) as H.
  cbv zeta in H. destruct H as [H _]. destruct (H eq_refl) as (_ & H1 & H2 & _).
  pose proof (addCustomCommand_overwrites "toString" ["help"] (initialState false)) as H'.
  cbv zeta in H'. destruct H' as [_ H']. destruct (H' eq_refl eq_refl) as (H3 & H4 & _).
  split; [exact H1|]. split; [|split; [exact H3 | exact H4]].
  rewrite (H2 "help") by discriminate.
  vm_compute. reflexivity.
Defined.

Lemma plainWord_command : plainWord "command" = true.
Proof. reflexivity. Qed.

Lemma hasChar_append (c : ascii) (a b : string) :
  hasChar c (a +:+ b) = hasChar c a || hasChar c b.
Proof.
  induction a as [|x a IH]; [reflexivity|].
  rewrite append_cons. cbn [hasChar]. by rewrite IH, orb_assoc.
Qed.

Lemma hasChar_join (tokens : list string) :
  Forall (fun t => hasChar Js.dquote t = false) tokens ->
  hasChar Js.dquote (Js.join " " tokens) = false.
Proof.
  induction tokens as [|t l IH]; intros H; [reflexivity|].
  inversion_clear H as [|? ? Ht Hl]. destruct l as [|u l]; [exact Ht|].
  rewrite join_cons by done. rewrite !hasChar_append, Ht, IH by done. reflexivity.
Qed.

(** On a line without double quote the test before the loop and the
    tokenizer see the same words. *)
Lemma lineTokens_no_quote (line : string) :
  hasChar Js.dquote line = false -> lineTokens line = splitArgs line.
Proof.
  intros Hq. unfold lineTokens, splitArgs, Js.split. cbv zeta.
  pose proof (scanLoop_split line scanInit eq_refl Hq) as H.
  cbn [scanInit args cur app] in H. rewrite <- H, nonEmpty_ltb.
  destruct (Js.nonEmpty (cur (scanLoop scanInit line))) eqn:Hc; [reflexivity|].
  rewrite filter_app, (filter_cons_False _ (cur _)) by (rewrite Hc; intros []).
  by rewrite filter_nil, app_nil_r.
Qed.

Lemma lineTokens_plain_join (tokens : list string) :
  Forall (fun t => plainWord t = true) tokens ->
  lineTokens (Js.join " " tokens) = tokens.
Proof.
  intros H. rewrite lineTokens_no_quote, splitArgs_plain_join; [done..|].
  apply hasChar_join. eapply Forall_impl; [exact H|].
  intros t Ht. by apply plainWord_inv in Ht as (_ & _ & ?).
Qed.

(** X11. A line that starts with [command] and is made of plain words
    separated by single spaces is dispatched as one statement, chain
    separators among the words included, provided [command] is still the
    built-in and the first word after it is not the name of a member of
    [Object.prototype]: that word becomes an alias for all the words that
    follow it, between disabling and enabling the input surface. When the
    first word after [command] is the name of a member of
    [Object.prototype], [sendCommand] rejects with a [TypeError] before it
    does anything. *)
Theorem command_line_defines_alias
    (fuel : nat) (nm : string) (expansion : list string) (st : State) :
  children (rootCommand st) !! "command" = Some commandNode ->
  Forall (fun t => plainWord t = true) (nm :: expansion) ->
  (inherited nm = false ->
   sendCommand (S (S fuel)) (Js.join " " ("command" :: nm :: expansion)) st
   = Some (emit (ESetEnabled true)
             (fst (addCustomCommand nm expansion (emit (ESetEnabled false) st))),
           Normal))
  /\ (inherited nm = true ->
      sendCommand (S (S fuel)) (Js.join " " ("command" :: nm :: expansion)) st
      = Some (st, Throw (notAFunction "child.findCommand"))).
Proof.
  intros Hc Hw.
  assert (Ht : lineTokens (Js.join " " ("command" :: nm :: expansion))
               = "command" :: nm :: expansion).
  { apply lineTokens_plain_join. constructor; [exact plainWord_command | exact Hw]. }
  split; intros Hi.
  - rewrite (sendCommand_body _ _ _ commandNode).
    2:{ rewrite Ht. cbn [findCommand]. rewrite (jsGet_own _ _ _ Hc).
        cbn [findCommand commandNode newCommand children].
        by rewrite jsGet_empty_undefined. }
    unfold sendCommandBody.
    assert (Hs : statements (Js.join " " ("command" :: nm :: expansion))
                 = [Js.join " " ("command" :: nm :: expansion)]).
    { rewrite join_cons by done. apply statements_command. }
    rewrite Hs. cbn [runStatements].
    rewrite splitArgs_plain_join by (constructor; [exact plainWord_command | exact Hw]).
    unfold dispatchRoot at 1. cbn [rootCommand emit].
    rewrite (handle_child _ _ commandNode) by exact Hc.
    rewrite (handle_here _ _ HDefineAlias);
      [|by apply jsGet_empty_undefined|reflexivity].
    cbn [runHandler firstArg slice1 tail].
    rewrite addCustomCommand_closed by done. reflexivity.
  - apply sendCommand_rejects. rewrite Ht. cbn [findCommand].
    rewrite (jsGet_own _ _ _ Hc). cbn [findCommand commandNode newCommand children].
    rewrite jsGet_inherited; [done | apply lookup_empty | done].
Qed.

Lemma command_line_defines_alias_witness :
  sendCommand 2 "command both print a && print b" (initialState false)
  = Some (emit (ESetEnabled true)
            (fst (addCustomCommand "both" ["print"; "a"; "&&"; "print"; "b"]
                    (emit (ESetEnabled false) (initialState false)))), Normal)
  /\ sendCommand 2 "command valueOf print a" (initialState false)
     = Some (initialState false, Throw (notAFunction "child.findCommand")).
Proof.
  split.
  - apply (command_line_defines_alias 0 "both" ["print"; "a"; "&&"; "print"; "b"]
             (initialState false)).
    + vm_compute. reflexivity.
    + repeat constructor.
    + reflexivity.
  - apply (command_line_defines_alias 0 "valueOf" ["print"; "a"] (initialState false)).
    + vm_compute. reflexivity.
    + repeat constructor.
    + reflexivity.
Defined.

(** * Loading and reloading aliases *)

Example loadModule_no_file (stack : bool) :
  loadModule stack None = (initialState stack, Normal).
Proof. destruct stack; vm_compute; reflexivity. Qed.

Lemma split_go_space_join (s : string) :
  forall cur, Js.join " " (Js.split_go " " 0 cur s) = cur +:+ s.
Proof.
  induction s as [|c s IH]; intros cur; cbn [Js.split_go].
  - cbn. by rewrite append_nil_r.
  - rewrite startsWith_space_cons.
    destruct (decide (c = Js.space)) as [->|Hc].
    + rewrite bool_decide_eq_true_2 by done.
      rewrite join_cons by apply split_go_not_nil.
      cbn [String.length Nat.sub]. by rewrite IH.
    + rewrite bool_decide_eq_false_2 by done. by rewrite IH, snoc_append.
Qed.

Lemma split_space_join (s : string) : Js.join " " (Js.split " " s) = s.
Proof. unfold Js.split. by rewrite split_go_space_join. Qed.

Lemma join_app (sep : string) (a b : list string) :
  a <> [] -> b <> [] ->
  Js.join sep (a ++ b) = Js.join sep a +:+ sep +:+ Js.join sep b.
Proof.
  intros Ha Hb. induction a as [|x a IH]; [done|].
  destruct a as [|y a].
  - cbn [app]. by rewrite join_cons.
  - change ((x :: y :: a) ++ b) with (x :: ((y :: a) ++ b)).
    rewrite !join_cons by done. rewrite IH by done.
    by rewrite !append_assoc.
Qed.

Lemma join_split_app (e r : list string) :
  e <> [] ->
  Js.join " " (Js.split " " (Js.join " " e) ++ r) = Js.join " " (e ++ r).
Proof.
  intros He. destruct r as [|x r].
  - by rewrite !app_nil_r, split_space_join.
  - rewrite !join_app by (done || apply split_go_not_nil).
    by rewrite split_space_join.
Qed.

(** X12. An alias read back from the alias file behaves as it did when
    it was defined: the file keeps the expansion joined by spaces, loading
    splits that line on spaces again, and for a non-empty expansion the
    handler built from the reloaded tokens passes [sendCommand] the same
    line as the handler built from the original ones, for all runtime
    arguments. *)
Theorem alias_reload (dispatch : list string -> State -> option (State * Completion))
    (expansion runArgs : list string) (st : State) :
  expansion <> [] ->
  Js.join " " (Js.split " " (Js.join " " expansion)) = Js.join " " expansion
  /\ runHandler dispatch (HAlias (Js.split " " (Js.join " " expansion))) runArgs st
     = runHandler dispatch (HAlias expansion) runArgs st.
Proof.
  intros He. split; [apply split_space_join|].
  cbn [runHandler]. by rewrite join_split_app.
Qed.

Lemma alias_reload_witness :
  runHandler (dispatchRoot 2)
    (HAlias (Js.split " " (Js.join " " ["print"; "hello  world"]))) ["now"]
    (initialState false)
  = runHandler (dispatchRoot 2) (HAlias ["print"; "hello  world"]) ["now"]
      (initialState false).
Proof.
  apply (alias_reload (dispatchRoot 2) ["print"; "hello  world"] ["now"]
           (initialState false)).
  discriminate.
Defined.

Lemma loadLoop_app (a : list string) :
  forall b st,
    loadLoop (a ++ b) st
    = match loadLoop a st with
      | (st1, Normal) => loadLoop b st1
      | r => r
      end.
Proof.
  induction a as [|key a IH]; intros b st; [reflexivity|].
  cbn [app loadLoop]. destruct (jsGet (customCommands st) key) as [v| |].
  - destruct (addCustomCommand key (Js.split " " v) st) as [st1 [|e]]; [apply IH | done].
  - done.
  - apply IH.
Qed.

Lemma loadLoop_closed (keys : list string) :
  forall st,
    (forall k, k ∈ keys -> is_Some (customCommands st !! k)) ->
    Forall (fun k => inherited k = false) keys ->
    loadLoop keys st
    = (mkState (foldl (replay (customCommands st)) (rootCommand st) keys)
         (customCommands st) (print_stacktrace st)
         (trace st ++ repeat (EWrite commandfile (customCommands st)) (List.length keys)),
       Normal).
Proof.
  induction keys as [|key keys IH]; intros st Hk Hi.
  - cbn [loadLoop foldl repeat List.length]. rewrite app_nil_r. by destruct st.
  - inversion_clear Hi as [|? ? Hkey Hkeys].
    cbn [loadLoop]. destruct (Hk key) as [v Hv]; [by left|].
    rewrite (jsGet_own _ _ _ Hv).
    rewrite addCustomCommand_closed by done.
    rewrite split_space_join, (insert_id _ _ _ Hv).
    rewrite IH by (done || (intros k Hin; apply Hk; by right)).
    cbn [rootCommand customCommands print_stacktrace trace foldl repeat List.length].
    assert (Hr : replay (customCommands st) (rootCommand st) key
                 = withChildren (rootCommand st)
                     (<[key := aliasNode key (Js.split " " v)]>
                        (children (rootCommand st))))
      by (unfold replay; by rewrite Hv).
    by rewrite Hr, <- app_assoc.
Qed.

Lemma foldl_replay_lookup (cc : gmap string string) (keys : list string) :
  forall r k,
    children (foldl (replay cc) r keys) !! k
    = if decide (k ∈ keys)
      then Some (aliasNode k (Js.split " " (default "" (cc !! k))))
      else children r !! k.
Proof.
  induction keys as [|key keys IH]; intros r k; cbn [foldl].
  - by rewrite decide_False by apply not_elem_of_nil.
  - rewrite IH. destruct (decide (k ∈ keys)) as [Hin|Hin].
    + by rewrite decide_True by by right.
    + unfold replay. cbn [children withChildren].
      destruct (decide (k = key)) as [->|Hne].
      * rewrite decide_True by by left. by rewrite lookup_insert_eq.
      * rewrite decide_False by (intros [?|?]%elem_of_cons; done).
        by rewrite lookup_insert_ne.
Qed.

Lemma loadModule_unfold (stack : bool) (entries : list (string * string)) :
  loadModule stack (Some entries)
  = let '(st3, c) := loadLoop entries.*1 (mkState earlyRoot (list_to_map entries) stack []) in
    match c with
    | Throw e => (st3, Throw e)
    | Normal =>
        match addCommand (rootCommand st3) [] "help" (Some "command, [args]?")
                (Some "Prints this help message") (Some HHelp) with
        | inl r4 =>
            (mkState r4 (customCommands st3) (print_stacktrace st3) (trace st3), Normal)
        | inr e => (st3, Throw e)
        end
    end.
Proof. reflexivity. Qed.

Lemma entries_keys_bound (entries : list (string * string)) (k : string) :
  k ∈ entries.*1 -> is_Some ((list_to_map entries : gmap string string) !! k).
Proof.
  intros Hk. destruct (list_to_map entries !! k) eqn:H; [by eexists|].
  by apply not_elem_of_list_to_map_2 in H.
Qed.

Lemma loadModule_loaded (stack : bool) (entries : list (string * string)) :
  NoDup entries.*1 -> "help" ∉ entries.*1 ->
  Forall (fun k => inherited k = false) entries.*1 ->
  exists st,
    loadModule stack (Some entries) = (st, Normal)
    /\ (forall k v, (k, v) ∈ entries ->
          children (rootCommand st) !! k = Some (aliasNode k (Js.split " " v)))
    /\ (forall k, k ∉ entries.*1 ->
          children (rootCommand st) !! k = children promptRoot !! k)
    /\ customCommands st = list_to_map entries
    /\ trace st
       = repeat (EWrite commandfile (list_to_map entries)) (List.length entries).
Proof.
  intros Hnd Hhelp Hplain. rewrite loadModule_unfold.
  rewrite loadLoop_closed
    by (done || (cbn [customCommands]; intros k Hk; by apply entries_keys_bound)).
  cbn [rootCommand customCommands print_stacktrace trace app].
  rewrite addCommand_fresh
    by (done || (rewrite foldl_replay_lookup; by rewrite decide_False)).
  eexists. split; [reflexivity|].
  cbn [rootCommand customCommands trace children withChildren].
  split; [|split; [|split]].
  - intros k v Hkv.
    assert (Hk : k ∈ entries.*1) by (apply list_elem_of_fmap; by exists (k, v)).
    rewrite lookup_insert_ne by (intros <-; done).
    rewrite foldl_replay_lookup, decide_True by done.
    by rewrite (elem_of_list_to_map_1 _ _ _ Hnd Hkv).
  - intros k Hk. destruct (decide (k = "help")) as [->|Hne].
    + rewrite lookup_insert_eq. vm_compute. reflexivity.
    + rewrite lookup_insert_ne by done.
      rewrite foldl_replay_lookup, decide_False by done.
      unfold promptRoot, earlyRoot. cbn [children].
      by rewrite (lookup_insert_ne _ "help" k) by done.
  - done.
  - by rewrite length_fmap.
Qed.

(** X13. Loading the module with an alias file whose names are
    distinct, do not include [help] and are not names of members of
    [Object.prototype] completes normally. Every entry of the file is then
    an alias at the root, with the expansion obtained by splitting its line
    on spaces; an alias named [print] or [command] has replaced the
    built-in of that name; the names that the file does not mention are the
    built-ins; the alias table is the content of the file; and the file has
    been written back once per entry, each time with that same content. *)
Theorem loadModule_aliases (stack : bool) (entries : list (string * string)) :
  NoDup entries.*1 -> "help" ∉ entries.*1 ->
  Forall (fun k => inherited k = false) entries.*1 ->
  exists st,
    loadModule stack (Some entries) = (st, Normal)
    /\ (forall k v, (k, v) ∈ entries ->
          children (rootCommand st) !! k = Some (aliasNode k (Js.split " " v)))
    /\ (forall k, k ∉ entries.*1 ->
          children (rootCommand st) !! k = children promptRoot !! k)
    /\ customCommands st = list_to_map entries
    /\ trace st
       = repeat (EWrite commandfile (list_to_map entries)) (List.length entries).
Proof. intros Hnd Hhelp Hplain. exact (loadModule_loaded stack entries Hnd Hhelp Hplain). Qed.

Lemma loadModule_aliases_witness :
  exists st,
    loadModule false (Some [("go", "move north"); ("print", "help")]) = (st, Normal)
    /\ children (rootCommand st) !! "go" = Some (aliasNode "go" ["move"; "north"])
    /\ children (rootCommand st) !! "print" = Some (aliasNode "print" ["help"])
    /\ children (rootCommand st) !! "command" = Some commandNode.
Proof.
  assert (Hnd : NoDup [("go", "move north"); ("print", "help")].*1)
    by (refine (bool_decide_unpack _ _); vm_compute; exact I).
  assert (Hh : "help" ∉ [("go", "move north"); ("print", "help")].*1)
    by (refine (bool_decide_unpack _ _); vm_compute; exact I).
  assert (Hc : "command" ∉ [("go", "move north"); ("print", "help")].*1)
    by (refine (bool_decide_unpack _ _); vm_compute; exact I).
  assert (Hp : Forall (fun k => inherited k = false)
                 [("go", "move north"); ("print", "help")].*1)
    by (repeat constructor).
  destruct (loadModule_aliases false [("go", "move north"); ("print", "help")] Hnd Hh Hp)
    as (st & H1 & H2 & H3 & _).
  exists st. split; [exact H1|]. split; [|split].
  - apply (H2 "go" "move north"). by left.
  - apply (H2 "print" "help"). right. by left.
  - rewrite (H3 "command" Hc). vm_compute. reflexivity.
Defined.

(** X14. An alias named [help] can be defined at run time, and the
    alias file written then has an entry [help]; but an alias file with an
    entry [help], and no name of a member of [Object.prototype], cannot be
    loaded: the aliases are registered before the built-in [help], whose
    registration then throws [Multiple commands: #help] and ends the
    loading of the module. An alias file with the name of a member of
    [Object.prototype] cannot be loaded either: at the first such name the
    registration of the alias throws [Multiple commands] with that name,
    before the entries after it are looked at. *)
Theorem loadModule_help_alias (stack : bool) :
  (forall expansion st,
      snd (addCustomCommand "help" expansion st) = Normal
      /\ exists cc, last (trace (fst (addCustomCommand "help" expansion st)))
                    = Some (EWrite commandfile cc)
                    /\ is_Some (cc !! "help"))
  /\ (forall entries,
        "help" ∈ entries.*1 -> Forall (fun k => inherited k = false) entries.*1 ->
        exists st, loadModule stack (Some entries)
                   = (st, Throw (JsError "Multiple commands: #help")))
  /\ (forall pre k v rest,
        Forall (fun k => inherited k = false) pre.*1 -> inherited k = true ->
        exists st, loadModule stack (Some (pre ++ (k, v) :: rest))
                   = (st, Throw (JsError ("Multiple commands: #" +:+ k)))).
Proof.
  split; [|split].
  - intros expansion st. rewrite addCustomCommand_closed by done. cbn [fst snd trace].
    split; [done|]. eexists. split; [apply last_snoc|].
    rewrite lookup_insert_eq. by eexists.
  - intros entries Hin Hplain. rewrite loadModule_unfold.
    rewrite loadLoop_closed
      by (done || (cbn [customCommands]; intros k Hk; by apply entries_keys_bound)).
    cbn [rootCommand customCommands print_stacktrace trace app].
    rewrite addCommand_duplicate
      by (left; rewrite foldl_replay_lookup, decide_True by done; by eexists).
    by eexists.
  - intros pre k v rest Hplain Hi. rewrite loadModule_unfold.
    rewrite fmap_app, fmap_cons, loadLoop_app. cbn [fst].
    rewrite loadLoop_closed.
    2:{ cbn [customCommands]. intros k' Hk'. apply entries_keys_bound.
        rewrite fmap_app. apply elem_of_app. by left. }
    2:{ done. }
    cbn [loadLoop customCommands].
    destruct (entries_keys_bound (pre ++ (k, v) :: rest) k) as [v' Hv'].
    { rewrite fmap_app, fmap_cons. apply elem_of_app. right. by left. }
    rewrite (jsGet_own _ _ _ Hv').
    rewrite addCustomCommand_inherited by done. by eexists.
Qed.

Lemma loadModule_help_alias_witness :
  (exists st, loadModule false (Some [("go", "move north"); ("help", "print no help")])
              = (st, Throw (JsError "Multiple commands: #help")))
  /\ (exists st, loadModule false (Some [("toString", "print x"); ("help", "print y")])
                 = (st, Throw (JsError "Multiple commands: #toString"))).
Proof.
  split.
  - apply (proj1 (proj2 (loadModule_help_alias false))
             [("go", "move north"); ("help", "print no help")]).
    + refine (bool_decide_unpack _ _); vm_compute; exact I.
    + repeat constructor.
  - apply (proj2 (proj2 (loadModule_help_alias false))
             [] "toString" "print x" [("help", "print y")]).
    + constructor.
    + reflexivity.
Defined.

(** * Invariants *)

Section Preservation.

(** A property of states that printing keeps, and that defining an alias
    keeps when the name is not that of a member of [Object.prototype]. *)
Variable P : State -> Prop.
Hypothesis P_emitAll : forall es st, P st -> P (emitAll es st).
Hypothesis P_alias :
  forall nm e st, inherited nm = false -> P st -> P (fst (addCustomCommand nm e st)).

Lemma P_emit (e : Event) (st : State) : P st -> P (emit e st).
Proof. apply (P_emitAll [e]). Qed.

Lemma report_keeps (c : Completion) (st : State) : P st -> P (report c st).
Proof.
  intros H. destruct c as [|e]; [done|]. cbn [report].
  destruct (hasMessage e); [by apply P_emit | done].
Qed.

Section Dispatch.

Variable dispatch : list string -> State -> option (State * Completion).
Hypothesis dispatch_keeps :
  forall a st st' c, P st -> dispatch a st = Some (st', c) -> P st'.

Lemma runStatements_keeps (coms : list string) :
  forall st st', P st -> runStatements dispatch coms st = Some st' -> P st'.
Proof.
  induction coms as [|com coms IH]; intros st st' HP; cbn [runStatements].
  - by intros [= <-].
  - destruct (dispatch (splitArgs com) st) as [[st1 c]|] eqn:Hd; [|done].
    apply IH, report_keeps. by apply (dispatch_keeps _ _ _ _ HP Hd).
Qed.

Lemma sendCommandWith_keeps (input : string) (st st' : State) (c : Completion) :
  P st -> sendCommandWith dispatch input st = Some (st', c) -> P st'.
Proof.
  intros HP. unfold sendCommandWith, sendCommandBody.
  destruct (findCommand _ _) as [[c0|]|e]; [|by intros [= <- _]..].
  destruct (runStatements dispatch _ _) as [st1|] eqn:Hr; [|done].
  intros [= <- _]. apply P_emit.
  apply (runStatements_keeps _ _ _ (P_emit _ _ HP) Hr).
Qed.

(** The handler is called by [handle] only on arguments whose first
    names no member of [Object.prototype]. *)
Lemma runHandler_keeps (h : Handler) (a : list string) (st st' : State) (c : Completion) :
  inherited (firstArg a) = false ->
  P st -> runHandler dispatch h a st = Some (st', c) -> P st'.
Proof.
  intros Hi HP. destruct h as [| |expansion| |f]; cbn [runHandler].
  - intros [= <- _]. by apply P_emit.
  - intros [= H].
    replace st' with (fst (addCustomCommand (firstArg a) (slice1 a) st))
      by (by rewrite H).
    by apply P_alias.
  - by apply sendCommandWith_keeps.
  - destruct (helpWalk _ _ _) as [e|e]; intros [= <- _]; [by apply P_emit | done].
  - destruct (f a) as [es c']. intros [= <- _]. by apply P_emitAll.
Qed.

End Dispatch.

Lemma handle_keeps (fuel : nat) :
  forall this path a st st' c,
    P st -> handle fuel this path a st = Some (st', c) -> P st'.
Proof.
  induction fuel as [|fuel IH]; intros this path a st st' c HP; [done|].
  cbn [handle].
  destruct (jsGet (children this) (firstArg a)) as [fc| |] eqn:Hj;
    [by apply IH | by intros [= <- _] |].
  destruct (handler this) as [h|]; [|by intros [= <- _]].
  apply jsGet_Undefined_inv in Hj as [_ Hi].
  apply runHandler_keeps; [|done..].
  intros a' s s' c' HP'. apply IH, HP'.
Qed.

Lemma sendCommand_keeps (fuel : nat) (input : string) (st st' : State) (c : Completion) :
  P st -> sendCommand fuel input st = Some (st', c) -> P st'.
Proof.
  apply sendCommandWith_keeps. intros a s s' c' HP. by apply handle_keeps.
Qed.

End Preservation.

Lemma framed_emitAll (ps : bool) (h : option Handler) (tr es : list Event) (st : State) :
  framed ps h tr st -> framed ps h tr (emitAll es st).
Proof.
  intros (H1 & H2 & es0 & H3). split; [done|]. split; [done|].
  exists (es0 ++ es). cbn [emitAll trace]. by rewrite H3, app_assoc.
Qed.

Lemma framed_alias (ps : bool) (h : option Handler) (tr : list Event)
    (nm : string) (e : list string) (st : State) :
  inherited nm = false ->
  framed ps h tr st -> framed ps h tr (fst (addCustomCommand nm e st)).
Proof.
  intros Hi (H1 & H2 & es0 & H3). rewrite addCustomCommand_closed by done.
  split; [done|]. split; [done|].
  eexists. cbn [fst trace]. by rewrite H3, <- app_assoc.
Qed.

(** X15. [sendCommand] settles in one of two ways. It rejects, with the
    error thrown by its first [findCommand], and then nothing has changed
    and nothing was printed. Or it fulfils, and then it has not changed the
    stack-trace setting, has not given the root a handler or taken it away,
    and has erased no output: what was printed before is still there,
    followed by the disabling of the input surface, the output of the
    statements, and the enabling of the input surface. (Handlers of other
    modules are taken to print and complete only.) *)
Theorem sendCommand_frame (fuel : nat) (input : string) (st st' : State)
    (c : Completion) :
  sendCommand fuel input st = Some (st', c) ->
  match c with
  | Throw e => st' = st /\ findCommand (rootCommand st) (lineTokens input) = inr e
  | Normal =>
      print_stacktrace st' = print_stacktrace st
      /\ handler (rootCommand st') = handler (rootCommand st)
      /\ exists es,
           trace st' = trace st ++ [ESetEnabled false] ++ es ++ [ESetEnabled true]
  end.
Proof.
  rewrite sendCommand_cases.
  destruct (findCommand (rootCommand st) (lineTokens input)) as [c0|e] eqn:Hf;
    [|by intros [= <- <-]].
  unfold sendCommandBody.
  destruct (runStatements _ _ _) as [st1|] eqn:Hr; [|done]. intros [= <- <-].
  assert (HP : framed (print_stacktrace st) (handler (rootCommand st))
                 (trace st ++ [ESetEnabled false]) st1).
  { revert Hr.
    apply (runStatements_keeps _ (framed_emitAll _ _ _)).
    - intros a s s' c Hs Hd. unfold dispatchRoot in Hd. revert Hd.
      apply (handle_keeps _ (framed_emitAll _ _ _) (framed_alias _ _ _)), Hs.
    - split; [done|]. split; [done|]. exists []. cbn [emit trace]. by rewrite app_nil_r. }
  destruct HP as (H1 & H2 & es & H3).
  split; [done|]. split; [done|]. exists es.
  cbn [emit trace]. by rewrite H3, <- !app_assoc.
Qed.

Lemma sendCommand_frame_witness :
  (exists st',
     sendCommand 3 "command go print x && go y" (initialState true) = Some (st', Normal)
     /\ print_stacktrace st' = true
     /\ handler (rootCommand st') = None)
  /\ sendCommand 3 "toString x" (initialState true)
     = Some (initialState true, Throw (notAFunction "child.findCommand")).
Proof.
  split.
  - destruct (sendCommand 3 "command go print x && go y" (initialState true))
      as [[st' c]|] eqn:H; [|vm_compute in H; discriminate].
    assert (Hc : c = Normal) by (vm_compute in H; congruence). subst c.
    exists st'. split; [reflexivity|].
    destruct (sendCommand_frame 3 _ _ _ _ H) as (H1 & H2 & _). by split.
  - destruct (sendCommand 3 "toString x" (initialState true))
      as [[st' c]|] eqn:H; [|vm_compute in H; discriminate].
    assert (Hc : c = Throw (notAFunction "child.findCommand"))
      by (vm_compute in H; injection H as _ <-; reflexivity).
    subst c. destruct (sendCommand_frame 3 _ _ _ _ H) as [-> _]. reflexivity.
Defined.

Lemma aliasNode_inj (nm : string) (e e' : list string) :
  aliasNode nm e = aliasNode nm e' -> e = e'.
Proof. unfold aliasNode, newCommand. by intros [= ->]. Qed.

Lemma promptRoot_no_alias (nm : string) (e : list string) :
  children promptRoot !! nm <> Some (aliasNode nm e).
Proof.
  unfold promptRoot. cbn [children].
  destruct (decide (nm = "help")) as [->|H1]; [by rewrite lookup_insert_eq|].
  rewrite lookup_insert_ne by done.
  destruct (decide (nm = "command")) as [->|H2]; [by rewrite lookup_insert_eq|].
  rewrite lookup_insert_ne by done.
  destruct (decide (nm = "print")) as [->|H3]; [by rewrite lookup_insert_eq|].
  rewrite lookup_insert_ne by done. by rewrite lookup_empty.
Qed.

Lemma tableMatchesTree_emitAll (es : list Event) (st : State) :
  tableMatchesTree st -> tableMatchesTree (emitAll es st).
Proof. done. Qed.

Lemma tableMatchesTree_alias (nm0 : string) (e0 : list string) (st : State) :
  inherited nm0 = false ->
  tableMatchesTree st -> tableMatchesTree (fst (addCustomCommand nm0 e0 st)).
Proof.
  intros Hi H nm v. rewrite addCustomCommand_closed by done.
  cbn [fst rootCommand customCommands children withChildren].
  destruct (decide (nm = nm0)) as [->|Hne].
  - rewrite !lookup_insert_eq. split.
    + intros [= <-]. by exists e0.
    + intros (e & He & <-).
      assert (He' : aliasNode nm0 e0 = aliasNode nm0 e) by congruence.
      by rewrite (aliasNode_inj _ _ _ He').
  - rewrite !lookup_insert_ne by done. apply H.
Qed.

Lemma jsSet_lookup_ne (o : gmap string string) (k v k' : string) :
  k' <> k -> jsSet o k v !! k' = o !! k'.
Proof.
  intros Hne. unfold jsSet. destruct (decide (k = "__proto__")); [destruct (o !! k)|];
    by rewrite ?lookup_insert_ne by done.
Qed.

Lemma treeInTable_alias (nm0 : string) (e0 : list string) (st : State) :
  treeInTable st -> treeInTable (fst (addCustomCommand nm0 e0 st)).
Proof.
  intros H nm e. destruct (inherited nm0) eqn:Hi.
  - rewrite addCustomCommand_inherited by done.
    cbn [fst rootCommand customCommands children withChildren].
    destruct (decide (nm = nm0)) as [->|Hne]; [by rewrite lookup_delete_eq|].
    rewrite lookup_delete_ne, jsSet_lookup_ne by done. apply H.
  - rewrite addCustomCommand_closed by done.
    cbn [fst rootCommand customCommands children withChildren].
    destruct (decide (nm = nm0)) as [->|Hne].
    + rewrite !lookup_insert_eq. intros [= He]. by rewrite He.
    + rewrite !lookup_insert_ne by done. apply H.
Qed.

(** X16. The alias table and the tree stay in step along the prompt.
    After the module is loaded, without an alias file or with one that
    loads, and after every line processed from then on, however it settles,
    a name has an entry in the alias table exactly when the root has an
    alias node of that name, and the entry is the expansion of that node
    joined by spaces: [handle] never calls the handler of [command] on the
    name of a member of [Object.prototype]. A direct call of
    [addCustomCommand] on such a name breaks the correspondence, the table
    gets an entry that the tree has no alias for, and keeps only one half of
    it: every alias node of the root still has its entry. (Handlers of
    other modules are taken to print and complete only.) *)
Theorem alias_table_matches_tree :
  (forall stack, tableMatchesTree (initialState stack))
  /\ (forall stack entries,
        NoDup entries.*1 -> "help" ∉ entries.*1 ->
        Forall (fun k => inherited k = false) entries.*1 ->
        exists st, loadModule stack (Some entries) = (st, Normal) /\ tableMatchesTree st)
  /\ (forall fuel input st st' c,
        tableMatchesTree st -> sendCommand fuel input st = Some (st', c) ->
        tableMatchesTree st')
  /\ (forall nm e st, treeInTable st -> treeInTable (fst (addCustomCommand nm e st)))
  /\ ~ tableMatchesTree (fst (addCustomCommand "toString" ["print"] (initialState false))).
Proof.
  split; [|split; [|split; [|split]]].
  - intros stack nm v. cbn [initialState customCommands rootCommand].
    rewrite lookup_empty. split; [done|].
    intros (e & He & _). by destruct (promptRoot_no_alias nm e).
  - intros stack entries Hnd Hhelp Hplain.
    destruct (loadModule_loaded stack entries Hnd Hhelp Hplain)
      as (st0 & H0 & Hin & Hout & Hcc & _).
    exists st0. split; [done|].
    intros nm v. rewrite Hcc. split.
    + intros Hv. apply elem_of_list_to_map_2 in Hv.
      exists (Js.split " " v). split; [by apply Hin | apply split_space_join].
    + intros (e & He & <-).
      destruct (decide (nm ∈ entries.*1)) as [Hk|Hk].
      * apply list_elem_of_fmap in Hk as ([k v] & -> & Hkv). cbn [fst] in *.
        rewrite (Hin k v Hkv) in He.
        assert (He' : aliasNode k (Js.split " " v) = aliasNode k e) by congruence.
        apply aliasNode_inj in He'. subst e.
        rewrite split_space_join. by apply elem_of_list_to_map_1.
      * rewrite (Hout nm Hk) in He. by destruct (promptRoot_no_alias nm e).
  - intros fuel input st st' c.
    apply (sendCommand_keeps _ tableMatchesTree_emitAll tableMatchesTree_alias).
  - intros nm e st. apply treeInTable_alias.
  - intros H. destruct (proj1 (H "toString" "print")) as (e & He & _).
    + vm_compute. reflexivity.
    + vm_compute in He. discriminate.
Qed.

Lemma alias_table_matches_tree_witness :
  (exists st' c,
     sendCommand 3 "command go move north" (initialState false) = Some (st', c)
     /\ tableMatchesTree st')
  /\ (exists st,
        loadModule false (Some [("go", "move north")]) = (st, Normal)
        /\ tableMatchesTree st).
Proof.
  split.
  - destruct (sendCommand 3 "command go move north" (initialState false))
      as [[st' c]|] eqn:H; [|vm_compute in H; discriminate].
    exists st', c. split; [reflexivity|].
    exact (proj1 (proj2 (proj2 alias_table_matches_tree)) 3 _ _ _ _
             (proj1 alias_table_matches_tree false) H).
  - apply (proj1 (proj2 alias_table_matches_tree) false [("go", "move north")]).
    + refine (bool_decide_unpack _ _); vm_compute; exact I.
    + refine (bool_decide_unpack _ _); vm_compute; exact I.
    + repeat constructor.
Defined.

(** * Lines *)

Lemma split_go_no_separator (s : string) :
  forall cur, Js.includes "&&" s = false -> Js.split_go "&&" 0 cur s = [cur +:+ s].
Proof.
  induction s as [|c s IH]; intros cur Hin; cbn [Js.split_go].
  - by rewrite append_nil_r.
  - rewrite includes_amp_cons in Hin. apply orb_false_elim in Hin as [Hsw Hin].
    rewrite Hsw, IH by done. by rewrite snoc_append.
Qed.

Lemma statements_one (line : string) :
  Js.startsWith "command" line = false -> Js.includes "&&" line = false ->
  statements line = [line].
Proof.
  intros Hc Hin. rewrite statements_chain by done.
  unfold Js.split. by rewrite split_go_no_separator.
Qed.

(** X17. A line is dispatched as a single statement exactly when it
    begins with [command] or contains no chain separator. *)
Theorem statements_single (line : string) :
  statements line = [line]
  <-> Js.startsWith "command" line = true \/ Js.includes "&&" line = false.
Proof.
  split.
  - intros Hs. destruct (Js.startsWith "command" line) eqn:Hc; [by left|]. right.
    pose proof (split_pieces line) as Hp.
    rewrite <- (statements_chain _ Hc), Hs in Hp. by apply Forall_inv in Hp.
  - intros [Hc|Hin].
    + unfold statements. by rewrite Hc.
    + destruct (Js.startsWith "command" line) eqn:Hc.
      * unfold statements. by rewrite Hc.
      * by apply statements_one.
Qed.

Lemma statements_single_witness :
  statements "command a b && c" = ["command a b && c"]
  /\ statements "print a & b" = ["print a & b"].
Proof.
  split.
  - apply (proj2 (statements_single "command a b && c")). left. reflexivity.
  - apply (proj2 (statements_single "print a & b")). right. reflexivity.
Defined.

Lemma statements_no_separator (line : string) :
  Js.includes "&&" line = false -> statements line = [line].
Proof.
  intros Hin. destruct (Js.startsWith "command" line) eqn:Hc.
  - unfold statements. by rewrite Hc.
  - by apply statements_one.
Qed.

Lemma sendCommand_one_statement (fuel : nat) (line : string) (st : State) (c0 : Command) :
  findCommand (rootCommand st) (lineTokens line) = inl (Some c0) ->
  Js.includes "&&" line = false ->
  sendCommand fuel line st
  = r ← dispatchRoot fuel (splitArgs line) (emit (ESetEnabled false) st);
    Some (emit (ESetEnabled true) (report r.2 r.1), Normal).
Proof.
  intros Hf Hin. rewrite (sendCommand_body _ _ _ c0 Hf). unfold sendCommandBody.
  rewrite statements_no_separator by done. cbn [runStatements].
  by destruct (dispatchRoot fuel _ _) as [[s1 c]|].
Qed.

Lemma lineTokens_print (x : string) :
  lineTokens ("print" +:+ " " +:+ x) = "print" :: lineTokens x.
Proof. reflexivity. Qed.

Lemma print_line_tokens (l : list Arg) :
  lineTokens (Js.join " " (map render (Plain "print" :: l)))
  = "print" :: tail (lineTokens (Js.join " " (map render (Plain "print" :: l)))).
Proof.
  destruct l as [|a l]; [reflexivity|].
  cbn [map render]. rewrite join_cons by done. by rewrite lineTokens_print.
Qed.

Lemma findCommand_leaf (this child : Command) (t0 : string) (rest : list string) :
  children this !! t0 = Some child -> children child = ∅ ->
  findCommand this (t0 :: rest)
  = if inherited (firstArg rest) then inr (notAFunction "child.findCommand")
    else inl (Some child).
Proof.
  intros Hc He. cbn [findCommand]. rewrite (jsGet_own _ _ _ Hc).
  destruct rest as [|t rest]; [reflexivity|]. cbn [findCommand firstArg].
  rewrite He. unfold jsGet. rewrite lookup_empty. by destruct (inherited t).
Qed.

(** X18. With the built-in [print] in place, take a line made of
    [print] and arguments separated by single spaces, plain or quoted,
    without chain separator. When the second word of the line as typed is
    the name of a member of [Object.prototype], [sendCommand] rejects and
    prints nothing. Otherwise, when the content of the first argument is
    not such a name either, the line prints the contents of the arguments
    joined by single spaces, quotes removed, between disabling and enabling
    the input surface, and does nothing else; and when it is such a name,
    which takes quotes around it, the [TypeError] of [handle] is printed
    in place of the message. *)
Theorem print_line (fuel : nat) (l : list Arg) (st : State) :
  let line := Js.join " " (map render (Plain "print" :: l)) in
  let typed := firstArg (tail (lineTokens line)) in
  children (rootCommand st) !! "print" = Some printNode ->
  Forall (fun x => okArg x = true) l ->
  Js.includes "&&" line = false ->
  (inherited typed = true ->
   sendCommand (S (S fuel)) line st
   = Some (st, Throw (notAFunction "child.findCommand")))
  /\ (inherited typed = false -> inherited (firstArg (map content l)) = false ->
      sendCommand (S (S fuel)) line st
      = Some (emit (ESetEnabled true)
                (emit (ELog (Js.join " " (map content l)))
                   (emit (ESetEnabled false) st)), Normal))
  /\ (inherited typed = false -> inherited (firstArg (map content l)) = true ->
      sendCommand (S (S fuel)) line st
      = Some (emit (ESetEnabled true)
                (emit (EError (notAFunction "fc.handle") (print_stacktrace st))
                   (emit (ESetEnabled false) st)), Normal)).
Proof.
  cbv zeta. intros Hp Hok Hin.
  pose proof (findCommand_leaf (rootCommand st) printNode "print"
                (tail (lineTokens (Js.join " " (map render (Plain "print" :: l)))))
                Hp eq_refl) as Hf.
  rewrite <- print_line_tokens in Hf.
  assert (Hs : splitArgs (Js.join " " (map render (Plain "print" :: l)))
               = "print" :: map content l).
  { rewrite splitArgs_contents by (constructor; [reflexivity | exact Hok]). reflexivity. }
  split; [|split].
  - intros Hi. rewrite Hi in Hf. by apply sendCommand_rejects.
  - intros Hi Hc. rewrite Hi in Hf.
    rewrite (sendCommand_one_statement _ _ _ _ Hf Hin), Hs.
    unfold dispatchRoot. cbn [rootCommand emit].
    rewrite (handle_child _ _ printNode) by exact Hp.
    rewrite (handle_here _ _ HPrint);
      [reflexivity | by apply jsGet_empty_undefined | reflexivity].
  - intros Hi Hc. rewrite Hi in Hf.
    rewrite (sendCommand_one_statement _ _ _ _ Hf Hin), Hs.
    unfold dispatchRoot. cbn [rootCommand emit].
    rewrite (handle_child _ _ printNode) by exact Hp.
    rewrite handle_inherited
      by (apply jsGet_inherited; [apply lookup_empty | done]).
    reflexivity.
Qed.

Lemma print_line_witness :
  sendCommand 2 (Js.join " " (map render [Plain "print"; Quoted "a  b"; Plain "c"]))
    (initialState false)
  = Some (emit (ESetEnabled true)
            (emit (ELog "a  b c") (emit (ESetEnabled false) (initialState false))),
          Normal)
  /\ sendCommand 2 (Js.join " " (map render [Plain "print"; Plain "constructor"]))
       (initialState false)
     = Some (initialState false, Throw (notAFunction "child.findCommand"))
  /\ sendCommand 2 (Js.join " " (map render [Plain "print"; Quoted "constructor"]))
       (initialState false)
     = Some (emit (ESetEnabled true)
               (emit (EError (notAFunction "fc.handle") false)
                  (emit (ESetEnabled false) (initialState false))), Normal).
Proof.
  split; [|split].
  - apply (proj1 (proj2 (print_line 0 [Quoted "a  b"; Plain "c"] (initialState false)
                           eq_refl ltac:(repeat constructor) eq_refl)));
      reflexivity.
  - apply (proj1 (print_line 0 [Plain "constructor"] (initialState false)
                    eq_refl ltac:(repeat constructor) eq_refl)).
    reflexivity.
  - apply (proj2 (proj2 (print_line 0 [Quoted "constructor"] (initialState false)
                           eq_refl ltac:(repeat constructor) eq_refl)));
      reflexivity.
Defined.

(** X19. Typing an alias followed by plain words, on a line without
    chain separator, is typing its expansion followed by these words,
    provided the first of these words is not the name of a member of
    [Object.prototype]: [sendCommand] runs itself on the expansion tokens
    and the words joined by single spaces, in the tree of the moment,
    inside one more disable/enable of the input surface, and prints the
    error with which the inner call rejects, if it does. When the first of
    the words is the name of a member of [Object.prototype], [sendCommand]
    rejects and runs nothing. *)
Theorem alias_line (fuel : nat) (nm : string) (expansion runArgs : list string)
    (st : State) :
  children (rootCommand st) !! nm = Some (aliasNode nm expansion) ->
  Forall (fun t => plainWord t = true) (nm :: runArgs) ->
  Js.includes "&&" (Js.join " " (nm :: runArgs)) = false ->
  (inherited (firstArg runArgs) = false ->
   sendCommand (S (S fuel)) (Js.join " " (nm :: runArgs)) st
   = r ← sendCommand fuel (Js.join " " (expansion ++ runArgs))
            (emit (ESetEnabled false) st);
     Some (emit (ESetEnabled true) (report r.2 r.1), Normal))
  /\ (inherited (firstArg runArgs) = true ->
      sendCommand (S (S fuel)) (Js.join " " (nm :: runArgs)) st
      = Some (st, Throw (notAFunction "child.findCommand"))).
Proof.
  intros Hc Hw Hin.
  pose proof (findCommand_leaf (rootCommand st) (aliasNode nm expansion) nm runArgs
                Hc eq_refl) as Hf.
  rewrite <- (lineTokens_plain_join (nm :: runArgs)) in Hf at 1 by done.
  split; intros Hi; rewrite Hi in Hf.
  - rewrite (sendCommand_one_statement _ _ _ _ Hf Hin).
    rewrite splitArgs_plain_join by done.
    by rewrite (alias_handle _ _ _ expansion) by done.
  - by apply sendCommand_rejects.
Qed.

Lemma alias_line_witness :
  sendCommand 4 "go fast" goState
  = (r ← sendCommand 2 "move north fast" (emit (ESetEnabled false) goState);
     Some (emit (ESetEnabled true) (report r.2 r.1), Normal))
  /\ sendCommand 4 "go valueOf" goState
     = Some (goState, Throw (notAFunction "child.findCommand")).
Proof.
  split.
  - apply (proj1 (alias_line 2 "go" ["move"; "north"] ["fast"] goState
                    eq_refl ltac:(repeat constructor) eq_refl)).
    reflexivity.
  - apply (proj2 (alias_line 2 "go" ["move"; "north"] ["valueOf"] goState
                    eq_refl ltac:(repeat constructor) eq_refl)).
    reflexivity.
Defined.

Lemma nodeAt_snoc (p : list string) :
  forall r c k c',
    nodeAt r p = Some c -> children c !! k = Some c' -> nodeAt r (p ++ [k]) = Some c'.
Proof.
  induction p as [|x p IH]; intros r c k c' Hr Hk; cbn [nodeAt app] in *.
  - injection Hr as ->. by rewrite Hk.
  - destruct (children r !! x); [|done]. by apply (IH _ c).
Qed.

(** X20. A command registered under a node of the tree, with a name
    that is free on that node and is not the name of a member of
    [Object.prototype], is reached by the names that lead to that node
    followed by its own name, and its handler receives exactly the tokens
    that come after, when the first of them is not the name of a member of
    [Object.prototype]; when it is, [handle] throws a [TypeError] and the
    handler is not called. *)
Theorem register_then_dispatch (root n : Command) (path : list string) (nm : string)
    (ad descr : option string) (h : Handler) :
  nodeAt root path = Some n -> children n !! nm = None -> inherited nm = false ->
  exists root',
    addCommandAt root [] path nm ad descr (Some h) = Some (inl root')
    /\ findCommand root' (path ++ [nm]) = inl (Some (newCommand nm ad descr (Some h)))
    /\ (forall fuel rest st, inherited (firstArg rest) = false ->
          handle (List.length path + S (S fuel)) root' [] (path ++ nm :: rest) st
          = runHandler (dispatchRoot fuel) h rest st)
    /\ (forall fuel rest st, inherited (firstArg rest) = true ->
          handle (List.length path + S (S fuel)) root' [] (path ++ nm :: rest) st
          = Some (st, Throw (notAFunction "fc.handle"))).
Proof.
  intros Hn Hc Hi.
  destruct (addCommandAt_fresh path root [] n nm ad descr (Some h) Hn Hc Hi)
    as (root' & Hadd & Hat & _).
  exists root'. split; [exact Hadd|].
  assert (Hnew : nodeAt root' (path ++ [nm]) = Some (newCommand nm ad descr (Some h))).
  { apply (nodeAt_snoc _ _ _ _ _ Hat). cbn [children withChildren].
    apply lookup_insert_eq. }
  split; [|split].
  - rewrite <- (app_nil_r (path ++ [nm])). apply findCommand_stop; auto.
  - intros fuel rest st Hr.
    pose proof (handle_descent (path ++ [nm]) fuel root' []
                  (newCommand nm ad descr (Some h)) rest st Hnew
                  (jsGet_empty_undefined _ Hr)) as H.
    rewrite length_app, <- app_assoc in H. cbn [List.length app] in H.
    replace (List.length path + 1 + S fuel) with (List.length path + S (S fuel)) in H by lia.
    exact H.
  - intros fuel rest st Hr.
    pose proof (handle_walk (path ++ [nm]) (S fuel) root' []
                  (newCommand nm ad descr (Some h)) rest st Hnew) as H.
    rewrite length_app, <- app_assoc in H. cbn [List.length app] in H.
    replace (List.length path + 1 + S fuel) with (List.length path + S (S fuel)) in H by lia.
    rewrite H. apply handle_inherited.
    apply jsGet_inherited; [apply lookup_empty | done].
Qed.

Lemma register_then_dispatch_witness :
  exists root',
    addCommandAt fooBarRoot [] ["foo"] "say" None None (Some HPrint) = Some (inl root')
    /\ (forall st, handle 3 root' [] ["foo"; "say"; "hi"] st
                   = runHandler (dispatchRoot 0) HPrint ["hi"] st)
    /\ (forall st, handle 3 root' [] ["foo"; "say"; "toString"] st
                   = Some (st, Throw (notAFunction "fc.handle"))).
Proof.
  assert (H1 : nodeAt fooBarRoot ["foo"] = Some fooNode) by (vm_compute; reflexivity).
  assert (H2 : children fooNode !! "say" = None) by (vm_compute; reflexivity).
  destruct (register_then_dispatch fooBarRoot fooNode ["foo"] "say" None None HPrint
              H1 H2 eq_refl)
    as (root' & Ha & _ & Hh & Hi).
  exists root'. split; [exact Ha|]. split.
  - intros st. exact (Hh 0 ["hi"] st eq_refl).
  - intros st. exact (Hi 0 ["toString"] st eq_refl).
Defined.
